(** * OSMod front end: data service, article model and realtime notifier

    A shallow embedding of
    - [packages/frontend-web/src/app/platform/dataService.ts] (the REST and
      service requests of the moderator client),
    - the article model ([IArticleAttributes], [ArticleModel]),
    - the WebSocket notifier ([connectNotifier], [disconnectNotifier]),
    followed by the properties of these that the design document states.

    Values that cross the wire are untyped in the sources ([any]); they are
    modelled by a type of JavaScript values, exceptions by a completion
    type, and the module-level variables of the notifier by an explicit
    state that every handler threads.  What the code does to the outside
    (requests, calls of the callbacks it was given, sockets it constructs)
    is recorded as a list of calls.  The callbacks handed to
    [connectNotifier] are taken to return normally, and [new myws(url)] to
    yield a socket. *)

From Stdlib Require Import ZArith QArith String Ascii List Lia.
From stdpp Require Import base option list gmap strings.

Set Warnings "-register-all".
Local Open Scope string_scope.
Local Open Scope list_scope.

(* ===================================================================== *)
(** * JavaScript values and completions *)
(* ===================================================================== *)

Module JS.

(** What [JSON.parse] and the object literals of the sources build.
    Objects are finite maps from property names to values; [Native] stands
    for a function or object supplied by the runtime (the members of
    [Object.prototype]), of which only the truthiness is ever observed. *)
Inductive any : Type :=
  | Undefined
  | Null
  | Bool (b : bool)
  | Num (q : Q)
  | Str (s : string)
  | Arr (l : list any)
  | Obj (m : gmap string any)
  | Native (name : string).

Inductive exn : Type :=
  | TypeError
  | SyntaxError
  | Error (message : string).

(** The outcome of evaluating a statement or a call. *)
Inductive completion (A : Type) : Type :=
  | Normal (a : A)
  | Throw (e : exn).
Arguments Normal {A} a.
Arguments Throw {A} e.

Definition bind {A B} (c : completion A) (k : A -> completion B) : completion B :=
  match c with
  | Normal a => k a
  | Throw e => Throw e
  end.

Declare Scope js_scope.
Delimit Scope js_scope with js.
Notation "x <- c ;; k" := (bind c (fun x => k))
  (at level 100, c at next level, right associativity) : js_scope.

(** [Array.prototype.map] with a callback that may throw: left to right,
    the first exception aborts the traversal. *)
Fixpoint mapM {A B} (f : A -> completion B) (l : list A) : completion (list B) :=
  match l with
  | [] => Normal []
  | x :: xs =>
      match f x with
      | Throw e => Throw e
      | Normal y =>
          match mapM f xs with
          | Throw e => Throw e
          | Normal ys => Normal (y :: ys)
          end
      end
  end.

(** ToBoolean. *)
Definition truthy (v : any) : bool :=
  match v with
  | Undefined | Null => false
  | Bool b => b
  | Num q => negb (Qeq_bool q 0)
  | Str s => negb (String.eqb s "")
  | Arr _ | Obj _ | Native _ => true
  end.

(** The members every object inherits from [Object.prototype]. *)
Definition Object_prototype : list string :=
  [ "constructor"; "__proto__"; "hasOwnProperty"; "isPrototypeOf";
    "propertyIsEnumerable"; "toLocaleString"; "toString"; "valueOf";
    "__defineGetter__"; "__defineSetter__";
    "__lookupGetter__"; "__lookupSetter__" ].

Definition inherited (k : string) : any :=
  if decide (k ∈ Object_prototype) then Native k else Undefined.

(** Property read [v.k] / [v[k]].  Reading a property of [undefined] or
    [null] throws; an object answers with its own property and otherwise
    with what the prototype chain holds.  For the other kinds of value only
    [Object.prototype] is consulted: the keys this program reads from such
    values ([type], [data], [url], [users], ...) are members of no built-in
    prototype, and their methods ([map], [startsWith]) are modelled by
    [call_map] and [call_startsWith] below. *)
Definition get (v : any) (k : string) : completion any :=
  match v with
  | Undefined | Null => Throw TypeError
  | Obj m =>
      match m !! k with
      | Some x => Normal x
      | None => Normal (inherited k)
      end
  | _ => Normal (inherited k)
  end.

(** Property write [v.k = x], in strict mode (ES modules): only objects
    take the property. *)
Definition set (v : any) (k : string) (x : any) : completion any :=
  match v with
  | Obj m => Normal (Obj (<[k := x]> m))
  | _ => Throw TypeError
  end.

(** [v.map(f)]: defined on arrays; on [undefined]/[null] the property read
    throws, on anything else [map] is not a function. *)
Definition call_map {B} (f : any -> completion B) (v : any) : completion (list B) :=
  match v with
  | Arr l => mapM f l
  | _ => Throw TypeError
  end.

(** [v.startsWith(p)]: defined on strings. *)
Definition call_startsWith (v : any) (p : string) : completion bool :=
  match v with
  | Str s => Normal (String.prefix p s)
  | _ => Throw TypeError
  end.

(** [s.replace(/^http/, 'ws')]. *)
Definition replace_http_ws (s : string) : string :=
  if String.prefix "http" s
  then "ws" +:+ String.substring 4 (String.length s - 4) s
  else s.

End JS.

Import JS.
Local Open Scope js_scope.

(* ===================================================================== *)
(** * The article model *)
(* ===================================================================== *)

Module Models.

(** The per-status counters of [IArticleAttributes]. *)
Definition count_fields : list string :=
  [ "allCount"; "unprocessedCount"; "unmoderatedCount"; "moderatedCount";
    "deferredCount"; "approvedCount"; "highlightedCount"; "rejectedCount";
    "flaggedCount"; "batchedCount"; "automatedCount" ].

(** [ArticleModel(articleData)]: sanitize the URL, keep everything else.
    The source overwrites [articleData.url] in place and returns the same
    object; the function below returns the object after the write. *)
Definition ArticleModel (articleData : any) : completion any :=
  url <- get articleData "url" ;;
  if truthy url then
    http <- call_startsWith url "http://" ;;
    unsafe <- (if negb http
               then https <- call_startsWith url "https://" ;; Normal (negb https)
               else Normal false) ;;
    if (unsafe : bool) then set articleData "url" Null
    else Normal articleData
  else Normal articleData.

End Models.

(* ===================================================================== *)
(** * What the sources import from outside *)
(* ===================================================================== *)

Inductive Method : Type := GET | POST | PATCH | DELETE.

(** An [axios] request: verb, URL and (for [post] and [patch]) the body. *)
Record Request : Type := mkRequest {
  req_method : Method;
  req_url : string;
  req_data : option any;
}.

(** The modules and libraries that [dataService.ts] and the notifier import
    and that are not part of the sources: the configuration, the parameter
    type with its [qs] serialization, [lodash.pick], the network behind
    [axios], [JSON.parse], and the model constructors other than
    [ArticleModel]. *)
Class Imports : Type := {
  API_URL : string;
  IParams : Type;
  (** the query string [qs.stringify] produces for the object that
      [serializeParams] prepares from non-null params *)
  query_of_params : IParams -> string;
  pick : gmap string any -> list string -> gmap string any;
  (** how the awaited request settles: the response, or a rejection *)
  axios : Request -> completion any;
  JSON_parse : string -> completion any;
  UserModel : any -> completion any;
  TagModel : any -> completion any;
  TaggingSensitivityModel : any -> completion any;
  RuleModel : any -> completion any;
  PreselectModel : any -> completion any;
  CategoryModel : any -> completion any;
}.

(* ===================================================================== *)
(** * dataService.ts *)
(* ===================================================================== *)

Module DataService.

Section WithImports.
Context `{Imports}.

(** An asynchronous operation of the service: the requests it issued, in
    order, and how its promise settles. *)
Definition Http (A : Type) : Type := (list Request * completion A)%type.

Definition resolved {A} (a : A) : Http A := ([], Normal a).

Definition lift {A} (c : completion A) : Http A := ([], c).

Definition await {A B} (m : Http A) (k : A -> Http B) : Http B :=
  match m with
  | (sent, Normal a) => let (sent', r) := k a in ((sent ++ sent')%list, r)
  | (sent, Throw e) => (sent, Throw e)
  end.

Definition request (m : Method) (url : string) (data : option any) : Http any :=
  let r := mkRequest m url data in ([r], axios r).

Definition requests {A} (m : Http A) : list Request := fst m.

Definition VALID_MODEL_NAMES_LOOKUP : gmap string any :=
  list_to_map
    [ ("articles", Bool true);
      ("categories", Bool true);
      ("comment_scores", Bool true);
      ("comments", Bool true);
      ("moderation_rules", Bool true);
      ("preselects", Bool true);
      ("tagging_sensitivities", Bool true);
      ("tags", Bool true);
      ("users", Bool true) ].

Definition validateModelName (name : string) : completion unit :=
  found <- get (Obj VALID_MODEL_NAMES_LOOKUP) name ;;
  if negb (truthy found)
  then Throw (Error ("Tried to perform a task on a model named " +:+ name +:+
                     " which wasn't in the list of valid values. Might be an attempted exploit."))
  else Normal tt.

Definition serializeParams (originalParams : option IParams) : string :=
  match originalParams with
  | None => ""
  | Some params => "?" +:+ query_of_params params
  end.

Definition REST_URL : string := "/rest".
Definition SERVICES_URL : string := "/services".

Definition serviceURL (service : string) (path : option string)
    (params : option IParams) : string :=
  API_URL +:+ SERVICES_URL +:+ "/" +:+ service +:+
  (match path with
   | Some p => if negb (String.eqb p "") then p else ""
   | None => ""
   end) +:+ serializeParams params.

Definition listURL (type : string) (params : option IParams) : completion string :=
  _ <- validateModelName type ;;
  Normal (API_URL +:+ REST_URL +:+ "/" +:+ type +:+ serializeParams params).

Definition modelURL (type id : string) (params : option IParams) : completion string :=
  _ <- validateModelName type ;;
  base <- listURL type None ;;
  Normal (base +:+ "/" +:+ id +:+ serializeParams params).

(** [fromJS(model).delete('id').toJS()]. *)
Definition without_id (model : gmap string any) : gmap string any :=
  delete "id" model.

Definition createModel (type : string) (model : gmap string any) : Http unit :=
  await (lift (validateModelName type)) (fun _ =>
  await (lift (listURL type None)) (fun url =>
  await (request POST url
              (Some (Obj {[ "data" :=
                 Obj {[ "attributes" := Obj (without_id model);
                        "type" := Str type ]} ]}))) (fun _ =>
  resolved tt))).

Definition updateModel (type id : string) (model : gmap string any)
    (onlyAttributes : option (list string)) : Http unit :=
  await (lift (validateModelName type)) (fun _ =>
  let attributes :=
    match onlyAttributes with
    | Some only => pick (without_id model) only
    | None => without_id model
    end in
  await (lift (modelURL type id None)) (fun url =>
  await (request PATCH url
              (Some (Obj {[ "data" :=
                 Obj {[ "attributes" := Obj attributes;
                        "type" := Str type;
                        "id" := Str id ]} ]}))) (fun _ =>
  resolved tt))).

Definition destroyModel (type id : string) : Http unit :=
  await (lift (validateModelName type)) (fun _ =>
  await (lift (modelURL type id None)) (fun url =>
  await (request DELETE url None) (fun _ =>
  resolved tt))).

(** ** Comment actions *)

Definition makeCommentAction (path : string) (ids : list string) : Http unit :=
  if (length ids <=? 0)%nat then resolved tt
  else
    let url := serviceURL "commentActions" (Some path) None in
    await (request POST url
                (Some (Obj {[ "data" := Arr (Str <$> ids);
                              "runImmediately" := Bool true ]}))) (fun _ =>
    resolved tt).

Definition makeCommentActionForId (path commentId : string) : Http unit :=
  let url := serviceURL "commentActions" (Some path) None in
  await (request POST url
              (Some (Obj {[ "data" := Obj {[ "commentId" := Str commentId ]} ]})))
           (fun _ => resolved tt).

Definition deleteCommentScoreRequest (commentId commentScoreId : string) : Http unit :=
  let url := serviceURL "commentActions"
               (Some ("/" +:+ commentId +:+ "/scores/" +:+ commentScoreId)) None in
  await (request DELETE url None) (fun _ => resolved tt).

Definition highlightCommentsRequest (ids : list string) : Http unit :=
  makeCommentAction "/highlight" ids.

Definition resetCommentsRequest (ids : list string) : Http unit :=
  makeCommentAction "/reset" ids.

Definition approveCommentsRequest (ids : list string) : Http unit :=
  makeCommentAction "/approve" ids.

Definition approveFlagsAndCommentsRequest (ids : list string) : Http unit :=
  makeCommentAction "/approve-flags" ids.

Definition resolveFlagsRequest (ids : list string) : Http unit :=
  makeCommentAction "/resolve-flags" ids.

Definition deferCommentsRequest (ids : list string) : Http unit :=
  makeCommentAction "/defer" ids.

Definition rejectCommentsRequest (ids : list string) : Http unit :=
  makeCommentAction "/reject" ids.

Definition rejectFlagsAndCommentsRequest (ids : list string) : Http unit :=
  makeCommentAction "/reject-flags" ids.

Definition tagCommentsRequest (ids : list string) (tagId : string) : Http unit :=
  makeCommentAction ("/tag/" +:+ tagId) ids.

Definition tagCommentSummaryScoresRequest (ids : list string) (tagId : string) : Http unit :=
  makeCommentAction ("/tagCommentSummaryScores/" +:+ tagId) ids.

Definition confirmCommentSummaryScoreRequest (commentId tagId : string) : Http unit :=
  makeCommentActionForId
    ("/" +:+ commentId +:+ "/tagCommentSummaryScores/" +:+ tagId +:+ "/confirm") commentId.

Definition rejectCommentSummaryScoreRequest (commentId tagId : string) : Http unit :=
  makeCommentActionForId
    ("/" +:+ commentId +:+ "/tagCommentSummaryScores/" +:+ tagId +:+ "/reject") commentId.

Definition tagCommentsAnnotationRequest (commentId tagId : string) (start_ end_ : Q) : Http unit :=
  let url := serviceURL "commentActions" (Some ("/" +:+ commentId +:+ "/scores")) None in
  await (request POST url
              (Some (Obj {[ "data" :=
                 Obj {[ "tagId" := Str tagId;
                        "annotationStart" := Num start_;
                        "annotationEnd" := Num end_ ]} ]})))
           (fun _ => resolved tt).

Definition confirmCommentScoreRequest (commentId commentScoreId : string) : Http unit :=
  let url := serviceURL "commentActions"
               (Some ("/" +:+ commentId +:+ "/scores/" +:+ commentScoreId +:+ "/confirm")) None in
  await (request POST url None) (fun _ => resolved tt).

Definition rejectCommentScoreRequest (commentId commentScoreId : string) : Http unit :=
  let url := serviceURL "commentActions"
               (Some ("/" +:+ commentId +:+ "/scores/" +:+ commentScoreId +:+ "/reject")) None in
  await (request POST url None) (fun _ => resolved tt).

Definition resetCommentScoreRequest (commentId commentScoreId : string) : Http unit :=
  let url := serviceURL "commentActions"
               (Some ("/" +:+ commentId +:+ "/scores/" +:+ commentScoreId +:+ "/reset")) None in
  await (request POST url None) (fun _ => resolved tt).

(** ** Articles and scores *)



(** ** Server status *)




End WithImports.

End DataService.

(* ===================================================================== *)
(** * serializeParams, in full *)
(* ===================================================================== *)

(** [DataService.serializeParams] takes the query string of non-null
    params as given.  This module spells out what the function does to the
    params object before it hands it to [qs.stringify]. *)
Module Query.

(** What the runtime and [qs] contribute: the text of a value that is not
    a string (numbers, booleans, objects), and the serialization
    [qs.stringify(params, { encode: false })]. *)
Class Runtime : Type := {
  ToString : any -> string;
  qs_stringify : gmap string any -> string;
}.

Section WithRuntime.
Context `{Runtime}.

(** One element of [Array.prototype.join]: [undefined] and [null] print as
    nothing, a string as itself. *)
Definition join_element (v : any) : string :=
  match v with
  | Undefined | Null => ""
  | Str s => s
  | other => ToString other
  end.

Fixpoint join (separator : string) (l : list any) : string :=
  match l with
  | [] => ""
  | [x] => join_element x
  | x :: rest => join_element x +:+ separator +:+ join separator rest
  end.

(** [v.join(separator)]: defined on arrays. *)
Definition call_join (v : any) (separator : string) : completion string :=
  match v with
  | Arr l => Normal (join separator l)
  | _ => Throw TypeError
  end.

(** The statements of [serializeParams] between the clone and the call of
    [qs.stringify]: the object that is serialized. *)
Definition prepareParams (originalParams : gmap string any)
    : completion (gmap string any) :=
  let params := originalParams in
  sort <- get (Obj originalParams) "sort" ;;
  params <- (if truthy sort
             then joined <- call_join sort "," ;;
                  Normal (<["sort" := Str joined]> params)
             else Normal params) ;;
  let params := delete "filters" params in
  filters <- get (Obj originalParams) "filters" ;;
  let params := if truthy filters then <["filter" := filters]> params else params in
  include <- get (Obj originalParams) "include" ;;
  if truthy include
  then current <- get (Obj params) "include" ;;
       joined <- call_join current "," ;;
       Normal (<["include" := Str joined]> params)
  else Normal params.

(** [None] is a [null] or [undefined] argument. *)
Definition serializeParams (originalParams : option (gmap string any))
    : completion string :=
  match originalParams with
  | None => Normal ""
  | Some o =>
      params <- prepareParams o ;;
      Normal ("?" +:+ qs_stringify params)
  end.

End WithRuntime.

End Query.

(* ===================================================================== *)
(** * The realtime notifier *)
(* ===================================================================== *)

Module Notifier.

Inductive ReadyState : Type := CONNECTING | OPEN | CLOSING | CLOSED.

(** The five callbacks handed to one call of [connectNotifier]; the
    closures that call installs on sockets and timers carry this name. *)
Definition Handlers : Type := nat.

(** A WebSocket object: its URL, its ready state, and which closure, if
    any, is installed as each of its event handlers. *)
Record WebSocket : Type := mkWebSocket {
  ws_url : string;
  readyState : ReadyState;
  onopen : option Handlers;
  onmessage : option Handlers;
  onclose : option Handlers;
}.

(** A [setInterval] registration; [clearInterval] turns [active] off. *)
Record Interval : Type := mkInterval {
  callback : Handlers;
  delay : Z;
  active : bool;
}.

Record ISystemData : Type := mkSystemData {
  sd_users : list any;
  sd_tags : list any;
  sd_taggingSensitivities : list any;
  sd_rules : list any;
  sd_preselects : list any;
}.

Record IAllArticlesData : Type := mkAllArticlesData {
  aa_categories : list any;
  aa_articles : list any;
}.

(** Both fields are optional: [None] is [undefined]. *)
Record IArticleUpdate : Type := mkArticleUpdate {
  au_categories : option (list any);
  au_articles : option (list any);
}.

(** What the notifier does to the outside: calls of the callbacks it was
    given, of the console, and of the WebSocket API. *)
Inductive Call : Type :=
  | websocketStateHandler (h : Handlers) (status : string)
  | systemDataHandler (h : Handlers) (data : ISystemData)
  | allArticlesDataHandler (h : Handlers) (data : IAllArticlesData)
  | articleUpdateHandler (h : Handlers) (data : IArticleUpdate)
  | perUserDataHandler (h : Handlers) (data : any)
  | console_log (text : string) (args : list any)
  | new_myws (socket : nat) (url : string)
  | ws_close (socket : nat).

(** The module-level variables ([ws], [intervalTimer], the four flags)
    together with the objects they refer to: the sockets created so far
    (a socket is named by its index), the intervals registered so far, and
    the token kept by [localStore]. *)
Record State : Type := mkState {
  ws : option nat;
  intervalTimer : option nat;
  gotSystem : bool;
  gotArticles : bool;
  gotUser : bool;
  socketUp : bool;
  sockets : list WebSocket;
  intervals : list Interval;
  token : option string;
}.

Definition STATUS_DOWN : string := "down".
Definition STATUS_UP : string := "up".
Definition STATUS_RESET : string := "reset".

(** The state when the module has just been loaded. *)
Definition initial (tok : option string) : State :=
  mkState None None false false false false [] [] tok.

Definition set_ws (v : option nat) (s : State) : State :=
  mkState v (intervalTimer s) (gotSystem s) (gotArticles s) (gotUser s)
          (socketUp s) (sockets s) (intervals s) (token s).
Definition set_intervalTimer (v : option nat) (s : State) : State :=
  mkState (ws s) v (gotSystem s) (gotArticles s) (gotUser s)
          (socketUp s) (sockets s) (intervals s) (token s).
Definition set_gotSystem (v : bool) (s : State) : State :=
  mkState (ws s) (intervalTimer s) v (gotArticles s) (gotUser s)
          (socketUp s) (sockets s) (intervals s) (token s).
Definition set_gotArticles (v : bool) (s : State) : State :=
  mkState (ws s) (intervalTimer s) (gotSystem s) v (gotUser s)
          (socketUp s) (sockets s) (intervals s) (token s).
Definition set_gotUser (v : bool) (s : State) : State :=
  mkState (ws s) (intervalTimer s) (gotSystem s) (gotArticles s) v
          (socketUp s) (sockets s) (intervals s) (token s).
Definition set_socketUp (v : bool) (s : State) : State :=
  mkState (ws s) (intervalTimer s) (gotSystem s) (gotArticles s) (gotUser s)
          v (sockets s) (intervals s) (token s).
Definition set_sockets (v : list WebSocket) (s : State) : State :=
  mkState (ws s) (intervalTimer s) (gotSystem s) (gotArticles s) (gotUser s)
          (socketUp s) v (intervals s) (token s).
Definition set_intervals (v : list Interval) (s : State) : State :=
  mkState (ws s) (intervalTimer s) (gotSystem s) (gotArticles s) (gotUser s)
          (socketUp s) (sockets s) v (token s).
Definition set_token (v : option string) (s : State) : State :=
  mkState (ws s) (intervalTimer s) (gotSystem s) (gotArticles s) (gotUser s)
          (socketUp s) (sockets s) (intervals s) v.

Definition with_onopen (h : option Handlers) (o : WebSocket) : WebSocket :=
  mkWebSocket (ws_url o) (readyState o) h (onmessage o) (onclose o).
Definition with_onmessage (h : option Handlers) (o : WebSocket) : WebSocket :=
  mkWebSocket (ws_url o) (readyState o) (onopen o) h (onclose o).
Definition with_onclose (h : option Handlers) (o : WebSocket) : WebSocket :=
  mkWebSocket (ws_url o) (readyState o) (onopen o) (onmessage o) h.
Definition with_readyState (r : ReadyState) (o : WebSocket) : WebSocket :=
  mkWebSocket (ws_url o) r (onopen o) (onmessage o) (onclose o).

(** ** Statements: state, calls made so far, completion *)

Definition M (A : Type) : Type := State -> State * list Call * completion A.

Definition ret {A} (a : A) : M A := fun s => (s, [], Normal a).

Definition and_then {A B} (m : M A) (k : A -> M B) : M B :=
  fun s =>
    match m s with
    | (s1, c1, Normal a) =>
        match k a s1 with
        | (s2, c2, r) => (s2, (c1 ++ c2)%list, r)
        end
    | (s1, c1, Throw e) => (s1, c1, Throw e)
    end.

Definition throw {A} (e : exn) : M A := fun s => (s, [], Throw e).
Definition eval {A} (c : completion A) : M A := fun s => (s, [], c).
Definition emit (c : Call) : M unit := fun s => (s, [c], Normal tt).
Definition read {A} (f : State -> A) : M A := fun s => (s, [], Normal (f s)).
Definition modify (f : State -> State) : M unit := fun s => (f s, [], Normal tt).

Declare Scope notifier_scope.
Delimit Scope notifier_scope with notifier.
Notation "x <- m ;; k" := (and_then m (fun x => k))
  (at level 100, m at next level, right associativity) : notifier_scope.
Notation "m ;;; k" := (and_then m (fun _ => k))
  (at level 100, right associativity) : notifier_scope.
Local Open Scope notifier_scope.

Definition is_OPEN (r : ReadyState) : bool :=
  match r with OPEN => true | _ => false end.

(** [v === s] for a string literal [s]. *)
Definition strict_eq_str (v : any) (s : string) : bool :=
  match v with
  | Str t => String.eqb t s
  | _ => false
  end.

(** [getToken()] of [localStore], spliced into a template literal: a
    missing token ([null]) prints as the text [null]. *)
Definition getToken : M string :=
  t <- read token ;;
  ret (match t with Some s => s | None => "null" end).

(** [ws.f = h]: a property write on the object the variable [ws] refers
    to; a [TypeError] when [ws] is [null]. *)
Definition assign_ws (f : option Handlers -> WebSocket -> WebSocket) (h : Handlers) : M unit :=
  cur <- read ws ;;
  match cur with
  | None => throw TypeError
  | Some s => modify (fun st => set_sockets (alter (f (Some h)) s (sockets st)) st)
  end.

(** [new myws(url)]: a fresh socket, connecting, without handlers. *)
Definition construct_myws (url : string) : M nat :=
  socks <- read sockets ;;
  let s := length socks in
  modify (set_sockets (socks ++ [mkWebSocket url CONNECTING None None None])%list) ;;;
  emit (new_myws s url) ;;;
  ret s.

(** [setInterval(checkSocketAlive, delay)], for the closure of [h]. *)
Definition setInterval (h : Handlers) (d : Z) : M nat :=
  ivs <- read intervals ;;
  modify (set_intervals (ivs ++ [mkInterval h d true])%list) ;;;
  ret (length ivs).

Definition clearInterval (t : option nat) : M unit :=
  match t with
  | None => ret tt
  | Some i =>
      modify (fun st =>
        set_intervals (alter (fun iv => mkInterval (callback iv) (delay iv) false) i
                             (intervals st)) st)
  end.

Section WithImports.
Context `{Imports}.

Definition packSystemData (data : any) : completion ISystemData :=
 (us <- get data "users" ;;
  users <- call_map UserModel us ;;
  ts <- get data "tags" ;;
  tags <- call_map TagModel ts ;;
  ss <- get data "taggingSensitivities" ;;
  taggingSensitivities <- call_map TaggingSensitivityModel ss ;;
  rs <- get data "rules" ;;
  rules <- call_map RuleModel rs ;;
  ps <- get data "preselects" ;;
  preselects <- call_map PreselectModel ps ;;
  Normal (mkSystemData users tags taggingSensitivities rules preselects))%js.

Definition packArticleData (data : any) : completion IAllArticlesData :=
 (cs <- get data "categories" ;;
  categories <- call_map CategoryModel cs ;;
  as_ <- get data "articles" ;;
  articles <- call_map Models.ArticleModel as_ ;;
  Normal (mkAllArticlesData categories articles))%js.

Definition packArticleUpdate (data : any) : completion IArticleUpdate :=
 (cs <- get data "categories" ;;
  categories <- (if truthy cs
                 then l <- call_map CategoryModel cs ;; Normal (Some l)
                 else Normal None) ;;
  as_ <- get data "articles" ;;
  articles <- (if truthy as_
               then l <- call_map Models.ArticleModel as_ ;; Normal (Some l)
               else Normal None) ;;
  Normal (mkArticleUpdate categories articles))%js.

(** ** The handlers that [checkSocketAlive] installs *)

Definition onclose_handler (h : Handlers) (code : Z) : M unit :=
  emit (console_log "websocket closed" [Num (inject_Z code)]) ;;;
  if (code =? 1005)%Z then
    emit (websocketStateHandler h STATUS_RESET)
  else
    modify (set_socketUp false) ;;;
    gs <- read gotSystem ;;
    ga <- read gotArticles ;;
    gu <- read gotUser ;;
    (if negb gs && negb ga && negb gu
     then emit (websocketStateHandler h STATUS_RESET)
     else emit (websocketStateHandler h STATUS_DOWN)) ;;;
    modify (set_ws None).

Definition onopen_handler (h : Handlers) : M unit :=
  emit (console_log "opened websocket" []) ;;;
  assign_ws with_onclose h.

(** The [if]/[else if] chain of [ws.onmessage]: hand the packed payload
    to the callback for the type of the message, then set the flag. *)
Definition onmessage_dispatch (h : Handlers) (body : any) : M unit :=
  ty <- eval (get body "type") ;;
  if strict_eq_str ty "system" then
    d <- eval (get body "data") ;;
    packed <- eval (packSystemData d) ;;
    emit (systemDataHandler h packed) ;;;
    modify (set_gotSystem true)
  else if strict_eq_str ty "global" then
    d <- eval (get body "data") ;;
    packed <- eval (packArticleData d) ;;
    emit (allArticlesDataHandler h packed) ;;;
    modify (set_gotArticles true)
  else if strict_eq_str ty "user" then
    d <- eval (get body "data") ;;
    emit (perUserDataHandler h d) ;;;
    modify (set_gotUser true)
  else if strict_eq_str ty "article-update" then
    d <- eval (get body "data") ;;
    packed <- eval (packArticleUpdate d) ;;
    emit (articleUpdateHandler h packed)
  else ret tt.

(** The last statement of [ws.onmessage]. *)
Definition onmessage_signal_up (h : Handlers) : M unit :=
  gs <- read gotSystem ;;
  ga <- read gotArticles ;;
  gu <- read gotUser ;;
  up <- read socketUp ;;
  if gs && ga && gu && negb up then
    emit (websocketStateHandler h STATUS_UP) ;;;
    modify (set_socketUp true)
  else ret tt.

Definition onmessage_handler (h : Handlers) (message_data : string) : M unit :=
  body <- eval (JSON_parse message_data) ;;
  onmessage_dispatch h body ;;;
  onmessage_signal_up h.

(** ** [connectNotifier] and [disconnectNotifier] *)

Definition ws_is_open (st : State) : bool :=
  match ws st with
  | None => false
  | Some s =>
      match sockets st !! s with
      | Some o => is_OPEN (readyState o)
      | None => false
      end
  end.

Definition checkSocketAlive (h : Handlers) : M unit :=
  alive <- read ws_is_open ;;
  if negb alive then
    tok <- getToken ;;
    let baseurl :=
      DataService.serviceURL ("updates/summary/?token=" +:+ tok) None None in
    let url := replace_http_ws baseurl in
    s <- construct_myws url ;;
    modify (set_ws (Some s)) ;;;
    assign_ws with_onopen h ;;;
    assign_ws with_onmessage h
  else ret tt.

Definition connectNotifier (h : Handlers) : M unit :=
  checkSocketAlive h ;;;
  t <- setInterval h 10000 ;;
  modify (set_intervalTimer (Some t)).

Definition call_ws_close : M unit :=
  cur <- read ws ;;
  match cur with
  | None => throw TypeError
  | Some s =>
      emit (ws_close s) ;;;
      modify (fun st =>
        set_sockets
          (alter (fun o => match readyState o with
                           | CONNECTING | OPEN => with_readyState CLOSING o
                           | _ => o
                           end) s (sockets st)) st)
  end.

Definition disconnectNotifier : M unit :=
  t <- read intervalTimer ;;
  clearInterval t ;;;
  call_ws_close.

(** ** The event loop

    What can happen to the module: the application calls one of the two
    exported functions, an interval fires, the runtime reports that a
    socket opened, delivered a message or closed, or the stored token
    changes.  An event for a socket first updates its ready state and then
    runs the handler installed for it, if there is one. *)

Inductive Event : Type :=
  | CallConnect (h : Handlers)
  | CallDisconnect
  | Tick (t : nat)
  | SocketOpened (s : nat)
  | SocketMessage (s : nat) (message_data : string)
  | SocketClosed (s : nat) (code : Z)
  | TokenStored (tok : option string).

Definition set_readyState (s : nat) (r : ReadyState) : M unit :=
  modify (fun st => set_sockets (alter (with_readyState r) s (sockets st)) st).

Definition handler_of (f : WebSocket -> option Handlers) (s : nat) : M (option Handlers) :=
  socks <- read sockets ;;
  ret (match socks !! s with Some o => f o | None => None end).

Definition step (e : Event) : M unit :=
  match e with
  | CallConnect h => connectNotifier h
  | CallDisconnect => disconnectNotifier
  | Tick t =>
      ivs <- read intervals ;;
      match ivs !! t with
      | Some iv => if active iv then checkSocketAlive (callback iv) else ret tt
      | None => ret tt
      end
  | SocketOpened s =>
      set_readyState s OPEN ;;;
      oh <- handler_of onopen s ;;
      match oh with Some h => onopen_handler h | None => ret tt end
  | SocketMessage s message_data =>
      oh <- handler_of onmessage s ;;
      match oh with Some h => onmessage_handler h message_data | None => ret tt end
  | SocketClosed s code =>
      set_readyState s CLOSED ;;;
      oh <- handler_of onclose s ;;
      match oh with Some h => onclose_handler h code | None => ret tt end
  | TokenStored tok => modify (set_token tok)
  end.

(** An exception that escapes a handler is reported by the runtime and the
    loop goes on with the state as the handler left it. *)
Fixpoint run (evs : list Event) (st : State) : State * list Call :=
  match evs with
  | [] => (st, [])
  | e :: rest =>
      match step e st with
      | (st1, c1, _) =>
          match run rest st1 with
          | (st2, c2) => (st2, (c1 ++ c2)%list)
          end
      end
  end.

End WithImports.

End Notifier.

(* ===================================================================== *)
(** * The exported comment actions, as data *)
(* ===================================================================== *)

(** The ten exported functions that go through [makeCommentAction]. *)
Inductive BatchAction : Type :=
  | Highlight
  | Reset
  | Approve
  | ApproveFlags
  | ResolveFlags
  | Defer
  | Reject
  | RejectFlags
  | TagComments (tagId : string)
  | TagCommentSummaryScores (tagId : string).

Definition batchRequest `{Imports} (a : BatchAction) (ids : list string)
    : DataService.Http unit :=
  match a with
  | Highlight => DataService.highlightCommentsRequest ids
  | Reset => DataService.resetCommentsRequest ids
  | Approve => DataService.approveCommentsRequest ids
  | ApproveFlags => DataService.approveFlagsAndCommentsRequest ids
  | ResolveFlags => DataService.resolveFlagsRequest ids
  | Defer => DataService.deferCommentsRequest ids
  | Reject => DataService.rejectCommentsRequest ids
  | RejectFlags => DataService.rejectFlagsAndCommentsRequest ids
  | TagComments tagId => DataService.tagCommentsRequest ids tagId
  | TagCommentSummaryScores tagId => DataService.tagCommentSummaryScoresRequest ids tagId
  end.

(** The path each of them hands to [makeCommentAction]. *)
Definition batch_path (a : BatchAction) : string :=
  match a with
  | Highlight => "/highlight"
  | Reset => "/reset"
  | Approve => "/approve"
  | ApproveFlags => "/approve-flags"
  | ResolveFlags => "/resolve-flags"
  | Defer => "/defer"
  | Reject => "/reject"
  | RejectFlags => "/reject-flags"
  | TagComments tagId => "/tag/" +:+ tagId
  | TagCommentSummaryScores tagId => "/tagCommentSummaryScores/" +:+ tagId
  end.

Definition fixed_batch_paths : list string :=
  [ "/highlight"; "/reset"; "/approve"; "/approve-flags"; "/resolve-flags";
    "/defer"; "/reject"; "/reject-flags" ].

(** The endpoints of the batch comment actions. *)
Definition batch_endpoint (path : string) : Prop :=
  path ∈ fixed_batch_paths
  ∨ (∃ tagId, path = "/tag/" +:+ tagId)
  ∨ (∃ tagId, path = "/tagCommentSummaryScores/" +:+ tagId).

(** The three model operations guarded by [validateModelName]. *)
Inductive ModelOp : Type :=
  | Create (model : gmap string any)
  | Update (id : string) (model : gmap string any) (onlyAttributes : option (list string))
  | Destroy (id : string).

Definition modelRequest `{Imports} (type : string) (op : ModelOp)
    : DataService.Http unit :=
  match op with
  | Create model => DataService.createModel type model
  | Update id model only => DataService.updateModel type id model only
  | Destroy id => DataService.destroyModel type id
  end.

(** The names of [IValidModelNames]. *)
Definition valid_model_names : list string :=
  [ "articles"; "categories"; "comment_scores"; "comments";
    "moderation_rules"; "preselects"; "tagging_sensitivities"; "tags";
    "users" ].

(** The four moderation outcomes of the glossary, as endpoint paths. *)
Definition moderation_outcomes : list string :=
  [ "/approve"; "/reject"; "/defer"; "/highlight" ].

(** [s] starts with [p]. *)
Definition starts_with (p s : string) : Prop := ∃ rest, s = p +:+ rest.

(* ===================================================================== *)
(** * A concrete environment for the examples *)
(* ===================================================================== *)

Definition dq : string := String (ascii_of_nat 34) EmptyString.

(** JSON text: a string literal, and an object with the given members
    (each value already as text). *)
Definition json_str (s : string) : string := dq +:+ s +:+ dq.

Fixpoint json_members (fields : list (string * string)) : string :=
  match fields with
  | [] => ""
  | [(k, v)] => json_str k +:+ ":" +:+ v
  | (k, v) :: rest => json_str k +:+ ":" +:+ v +:+ "," +:+ json_members rest
  end.

Definition json_obj (fields : list (string * string)) : string :=
  "{" +:+ json_members fields +:+ "}".

(** Wire messages, as text. *)
Definition msg_system : string :=
  json_obj [ ("type", json_str "system");
             ("data", json_obj [ ("users", "[]"); ("tags", "[]");
                                 ("taggingSensitivities", "[]");
                                 ("rules", "[]"); ("preselects", "[]") ]) ].

Definition msg_global : string :=
  json_obj [ ("type", json_str "global");
             ("data", json_obj
                [ ("categories", "[]");
                  ("articles",
                   "[" +:+ json_obj [ ("id", json_str "7");
                                      ("url", json_str "javascript:alert(1)") ]
                       +:+ "]") ]) ].

Definition msg_user : string :=
  json_obj [ ("type", json_str "user");
             ("data", json_obj [ ("assignments", "3") ]) ].

Definition msg_update : string :=
  json_obj [ ("type", json_str "article-update"); ("data", "{}") ].

Definition msg_ping : string := json_obj [ ("type", json_str "ping") ].

(** A [system] message without its payload. *)
Definition msg_system_bare : string := json_obj [ ("type", json_str "system") ].

(** The sample messages with the value [JSON.parse] gives for each. *)
Definition sample_messages : list (string * any) :=
  [ (msg_system,
     Obj {[ "type" := Str "system";
            "data" := Obj {[ "users" := Arr []; "tags" := Arr [];
                             "taggingSensitivities" := Arr [];
                             "rules" := Arr []; "preselects" := Arr [] ]} ]});
    (msg_global,
     Obj {[ "type" := Str "global";
            "data" := Obj {[ "categories" := Arr [];
                             "articles" :=
                               Arr [ Obj {[ "id" := Str "7";
                                            "url" := Str "javascript:alert(1)" ]} ] ]} ]});
    (msg_user,
     Obj {[ "type" := Str "user";
            "data" := Obj {[ "assignments" := Num 3 ]} ]});
    (msg_update,
     Obj {[ "type" := Str "article-update"; "data" := Obj ∅ ]});
    (msg_ping, Obj {[ "type" := Str "ping" ]});
    (msg_system_bare, Obj {[ "type" := Str "system" ]});
    ("null", Null) ].

Fixpoint assoc (l : list (string * any)) (k : string) : option any :=
  match l with
  | [] => None
  | (k', v) :: rest => if String.eqb k k' then Some v else assoc rest k
  end.

(** A development server on localhost; requests succeed; [JSON.parse]
    knows the sample messages; the model constructors return their
    argument. *)
Definition sample_imports : Imports := {|
  API_URL := "http://localhost:8080";
  IParams := unit;
  query_of_params := fun _ => "";
  pick := fun m keys => filter (fun kv => bool_decide (kv.1 ∈ keys)) m;
  axios := fun _ => Normal (Obj ∅);
  JSON_parse := fun s =>
    match assoc sample_messages s with
    | Some v => Normal v
    | None => Throw SyntaxError
    end;
  UserModel := Normal;
  TagModel := Normal;
  TaggingSensitivityModel := Normal;
  RuleModel := Normal;
  PreselectModel := Normal;
  CategoryModel := Normal;
|}.

(* ===================================================================== *)
(** * Vocabulary for the properties *)
(* ===================================================================== *)

Import Models DataService Notifier.

(** ** Traces of the notifier *)

(** The status signals among some calls: who was told what. *)
Definition status_calls (cs : list Call) : list (Handlers * string) :=
  omap (fun c => match c with
                 | websocketStateHandler h status => Some (h, status)
                 | _ => None
                 end) cs.

(** The calls of the four data callbacks among some calls. *)
Definition is_data_call (c : Call) : bool :=
  match c with
  | systemDataHandler _ _ | allArticlesDataHandler _ _
  | articleUpdateHandler _ _ | perUserDataHandler _ _ => true
  | _ => false
  end.

Definition data_calls (cs : list Call) : list Call := List.filter is_data_call cs.

(** The URLs of the sockets constructed among some calls. *)
Definition opened_urls (cs : list Call) : list string :=
  omap (fun c => match c with new_myws _ url => Some url | _ => None end) cs.

Definition state_after `{Imports} (evs : list Event) (st : State) : State :=
  (run evs st).1.

Definition calls_during `{Imports} (evs : list Event) (st : State) : list Call :=
  (run evs st).2.

Definition calls_of_step `{Imports} (e : Event) (st : State) : list Call :=
  (step e st).1.2.

(** Handling event [e] in state [st] tells [h] the status [status]. *)
Definition signals `{Imports} (h : Handlers) (status : string) (e : Event) (st : State) : Prop :=
  (h, status) ∈ status_calls (calls_of_step e st).

(** A message whose [type] is [ty] is among the events. *)
Definition received `{Imports} (ty : string) (evs : list Event) : Prop :=
  ∃ s message_data body,
    SocketMessage s message_data ∈ evs ∧
    JSON_parse message_data = Normal body ∧
    get body "type" = Normal (Str ty).

(** The socket is up: the status was signalled and all three kinds of
    message have been handled. *)
Definition is_up (st : State) : Prop :=
  socketUp st = true ∧ gotSystem st = true ∧ gotArticles st = true ∧ gotUser st = true.

(** A socket event first records the new ready state. *)
Definition with_state_of (s : nat) (r : ReadyState) (st : State) : State :=
  set_sockets (alter (with_readyState r) s (sockets st)) st.

(** The URL [checkSocketAlive] connects to in state [st]. *)
Definition notifier_url `{Imports} (st : State) : string :=
  replace_http_ws
    (DataService.serviceURL ("updates/summary/?token=" +:+
                 match token st with Some t => t | None => "null" end) None None).

(** The state after a reconnect. *)
Definition reconnected `{Imports} (h : Handlers) (st : State) : State :=
  set_sockets
    (sockets st ++ [mkWebSocket (notifier_url st) CONNECTING (Some h) (Some h) None])
    (set_ws (Some (length (sockets st))) st).

(** What a dispatch that completes has done. *)
Inductive dispatched `{Imports} (h : Handlers) (body : any) (st : State)
    : State -> list Call -> Prop :=
  | dispatched_system d p :
      get body "type" = Normal (Str "system") -> get body "data" = Normal d ->
      packSystemData d = Normal p ->
      dispatched h body st (set_gotSystem true st) [systemDataHandler h p]
  | dispatched_global d p :
      get body "type" = Normal (Str "global") -> get body "data" = Normal d ->
      packArticleData d = Normal p ->
      dispatched h body st (set_gotArticles true st) [allArticlesDataHandler h p]
  | dispatched_user d :
      get body "type" = Normal (Str "user") -> get body "data" = Normal d ->
      dispatched h body st (set_gotUser true st) [perUserDataHandler h d]
  | dispatched_update d p :
      get body "type" = Normal (Str "article-update") -> get body "data" = Normal d ->
      packArticleUpdate d = Normal p ->
      dispatched h body st st [articleUpdateHandler h p]
  | dispatched_other ty :
      get body "type" = Normal ty ->
      ty ∉ [Str "system"; Str "global"; Str "user"; Str "article-update"] ->
      dispatched h body st st [].

(** A received article whose URL is not a web address. *)
Definition sample_article : gmap string any :=
  {[ "id" := Str "7"; "title" := Str "Local news";
     "url" := Str "javascript:alert(1)"; "allCount" := Num 12 ]}.

(** A connection that has seen a system and a global message. *)
Definition sample_history : list Event :=
  [ CallConnect 0; SocketOpened 0;
    SocketMessage 0 msg_system; SocketMessage 0 msg_global ].

(** ** Articles *)

(** An article whose [url], if it is a string, is empty or a web address. *)
Definition safe_url (a : any) : Prop :=
  ∀ u, get a "url" = Normal (Str u) →
       u = "" ∨ starts_with "http://" u ∨ starts_with "https://" u.

(** Whether [ArticleModel] replaces this URL by [null]. *)
Definition unsafe_url (s : string) : bool :=
  negb (String.eqb s "") && negb (String.prefix "http://" s)
  && negb (String.prefix "https://" s).


(** A runtime for the examples, which join strings only and stop at the
    prepared object. *)
Definition sample_runtime : Query.Runtime := {|
  Query.ToString := fun v => match v with
                            | Bool true => "true"
                            | Bool false => "false"
                            | _ => ""
                            end;
  Query.qs_stringify := fun _ => "";
|}.

(** Params as the histogram requests build them, with a filter. *)
Definition sample_params : gmap string any :=
  {[ "sort" := Arr [Str "-score"; Str "id"];
     "filters" := Obj {[ "isAccepted" := Bool true ]};
     "include" := Arr [Str "article"];
     "page" := Num 2 ]}.

(** The value of property [k] of an object that does not inherit it. *)
Definition own (o : gmap string any) (k : string) : any :=
  match o !! k with Some x => x | None => Undefined end.

Definition is_array (v : any) : bool :=
  match v with Arr _ => true | _ => false end.

(** The sample connection after all three messages, a close and a
    reconnect by the interval: a second socket is open. *)
Definition sample_reconnection : list Event :=
  sample_history ++
  [ SocketMessage 0 msg_user; SocketClosed 0 1006; Tick 0; SocketOpened 1 ].

(** No socket has a close handler. *)
Definition no_close_handler (st : State) : Prop :=
  ∀ s o, sockets st !! s = Some o → onclose o = None.


(* ===================================================================== *)
(** * Properties *)
(* ===================================================================== *)

(** ** Strings *)

Lemma prefix_starts_with (p s : string) :
  String.prefix p s = true ↔ starts_with p s.
Proof.
  revert s. induction p as [|c p IH]; intros s.
  - split; [intros _; exists s; reflexivity | intros _; destruct s; reflexivity].
  - destruct s as [|d s]; simpl.
    + split; [discriminate | intros [r Hr]; discriminate].
    + destruct (Ascii.ascii_dec c d) as [->|Hne].
      * rewrite IH. split; intros [r Hr]; exists r.
        -- rewrite Hr. reflexivity.
        -- change (String d p +:+ r) with (String d (p +:+ r)) in Hr.
           now injection Hr.
      * split; [discriminate|]. intros [r Hr].
        change (String c p +:+ r) with (String c (p +:+ r)) in Hr. congruence.
Qed.

Lemma prefix_false_not_starts_with (p s : string) :
  String.prefix p s = false ↔ ¬ starts_with p s.
Proof.
  rewrite <- prefix_starts_with. destruct (String.prefix p s); split; congruence.
Qed.

Lemma eqb_empty_false (s : string) : s ≠ "" → String.eqb s "" = false.
Proof. intros Hs. apply String.eqb_neq. exact Hs. Qed.

(** ** The article model *)

Section ArticleModelFacts.

Variable m : gmap string any.
Variable u : string.
Hypothesis Hurl : m !! "url" = Some (Str u).

Lemma ArticleModel_unsafe :
  u ≠ "" → ¬ starts_with "http://" u → ¬ starts_with "https://" u →
  ArticleModel (Obj m) = Normal (Obj (<["url" := Null]> m)).
Proof.
  intros Hne Hhttp Hhttps.
  apply prefix_false_not_starts_with in Hhttp, Hhttps.
  unfold ArticleModel. simpl. rewrite Hurl. simpl.
  rewrite (eqb_empty_false _ Hne). simpl.
  rewrite Hhttp. simpl. rewrite Hhttps. reflexivity.
Qed.

Lemma ArticleModel_safe :
  u = "" ∨ starts_with "http://" u ∨ starts_with "https://" u →
  ArticleModel (Obj m) = Normal (Obj m).
Proof.
  intros Hcase. unfold ArticleModel. simpl. rewrite Hurl. simpl.
  destruct (String.eqb u "") eqn:He; [reflexivity|]. simpl.
  destruct Hcase as [->|[Hh|Hh]]; [discriminate| |];
    apply prefix_starts_with in Hh.
  - rewrite Hh. reflexivity.
  - destruct (String.prefix "http://" u); simpl; [reflexivity|].
    rewrite Hh. reflexivity.
Qed.

End ArticleModelFacts.

(** C10.  For an article record whose [url] is a string: when the string
    is non-empty and starts with neither [http://] nor [https://],
    [ArticleModel] returns the record with [url] set to [null]; when it is
    empty or starts with one of the two, the [url] comes back as it was;
    and in both cases every field other than [url] is returned unchanged. *)
Theorem ArticleModel_sanitizes_url (m : gmap string any) (u : string) :
  m !! "url" = Some (Str u) →
  ∃ m', ArticleModel (Obj m) = Normal (Obj m')
      ∧ (∀ k, k ≠ "url" → m' !! k = m !! k)
      ∧ (u ≠ "" → ¬ starts_with "http://" u → ¬ starts_with "https://" u →
         m' !! "url" = Some Null)
      ∧ (u = "" ∨ starts_with "http://" u ∨ starts_with "https://" u →
         m' !! "url" = Some (Str u)).
Proof.
  intros Hurl.
  destruct (String.eqb u "") eqn:He.
  { apply String.eqb_eq in He. exists m.
    split; [apply (ArticleModel_safe m u Hurl); auto|].
    split; [reflexivity|]. split; [intros Hne; contradiction | intros _; exact Hurl]. }
  apply String.eqb_neq in He.
  destruct (String.prefix "http://" u) eqn:H1.
  { apply prefix_starts_with in H1. exists m.
    split; [apply (ArticleModel_safe m u Hurl); auto|].
    split; [reflexivity|]. split; [intros _ Hn; contradiction | intros _; exact Hurl]. }
  destruct (String.prefix "https://" u) eqn:H2.
  { apply prefix_starts_with in H2. exists m.
    split; [apply (ArticleModel_safe m u Hurl); auto|].
    split; [reflexivity|]. split; [intros _ _ Hn; contradiction | intros _; exact Hurl]. }
  apply prefix_false_not_starts_with in H1, H2.
  exists (<["url" := Null]> m).
  split; [apply (ArticleModel_unsafe m u Hurl); assumption|].
  split; [intros k Hk; apply lookup_insert_ne; congruence|].
  split; [intros _ _ _; apply lookup_insert_eq|].
  intros [->|[Hc|Hc]]; [congruence | contradiction | contradiction].
Qed.

Lemma ArticleModel_sanitizes_url_witness :
  sample_article !! "url" = Some (Str "javascript:alert(1)")
  ∧ ∃ m', ArticleModel (Obj sample_article) = Normal (Obj m')
      ∧ (∀ k, k ≠ "url" → m' !! k = sample_article !! k)
      ∧ ("javascript:alert(1)" ≠ "" →
         ¬ starts_with "http://" "javascript:alert(1)" →
         ¬ starts_with "https://" "javascript:alert(1)" →
         m' !! "url" = Some Null)
      ∧ ("javascript:alert(1)" = "" ∨ starts_with "http://" "javascript:alert(1)"
         ∨ starts_with "https://" "javascript:alert(1)" →
         m' !! "url" = Some (Str "javascript:alert(1)")).
Proof.
  split; [reflexivity|].
  apply (ArticleModel_sanitizes_url sample_article "javascript:alert(1)").
  reflexivity.
Defined.

(** Whatever [ArticleModel] returns for an object, it is that object with
    at most the [url] changed. *)
Lemma ArticleModel_keeps_other_fields (m : gmap string any) (a : any) (k : string) :
  k ≠ "url" → ArticleModel (Obj m) = Normal a →
  ∃ m', a = Obj m' ∧ m' !! k = m !! k.
Proof.
  intros Hne. unfold ArticleModel. simpl.
  destruct (m !! "url") as [v|]; simpl.
  - destruct (truthy v); [|intros [= <-]; eauto].
    destruct v; simpl; try discriminate.
    destruct (String.prefix "http://" s); simpl.
    + intros [= <-]; eauto.
    + destruct (String.prefix "https://" s); simpl; intros [= <-]; eauto.
      eexists; split; [reflexivity|]. now apply lookup_insert_ne.
  - intros [= <-]; eauto.
Qed.

(** The counters of an article pass through [ArticleModel] as received:
    the client neither recomputes nor checks them. *)
Lemma ArticleModel_keeps_counts (m : gmap string any) (a : any) (k : string) :
  k ∈ count_fields → ArticleModel (Obj m) = Normal a →
  ∃ m', a = Obj m' ∧ m' !! k = m !! k.
Proof.
  intros Hk. apply ArticleModel_keeps_other_fields.
  intros ->. revert Hk. unfold count_fields.
  rewrite !elem_of_cons, elem_of_nil. intuition discriminate.
Qed.

Lemma append_cons (c : ascii) (s t : string) :
  String c s +:+ t = String c (s +:+ t).
Proof. reflexivity. Qed.

Lemma append_nil_r (s : string) : s +:+ "" = s.
Proof.
  induction s as [|c s IH]; [reflexivity|]. now rewrite append_cons, IH.
Qed.

Lemma append_assoc (a b c : string) : (a +:+ b) +:+ c = a +:+ b +:+ c.
Proof.
  induction a as [|x a IH]; [reflexivity|]. now rewrite !append_cons, IH.
Qed.

Lemma substring_whole (s : string) : String.substring 0 (String.length s) s = s.
Proof. induction s as [|c s IH]; [reflexivity|]. simpl. now rewrite IH. Qed.

(** ** Model names *)

Section ModelNames.
Context `{Imports}.

Lemma lookup_valid_name (name : string) :
  name ∈ valid_model_names → VALID_MODEL_NAMES_LOOKUP !! name = Some (Bool true).
Proof.
  unfold valid_model_names. rewrite !elem_of_cons, elem_of_nil.
  intros Hin. repeat (destruct Hin as [->|Hin]; [reflexivity|]). contradiction.
Qed.

Lemma lookup_other_name (name : string) :
  name ∉ valid_model_names → VALID_MODEL_NAMES_LOOKUP !! name = None.
Proof.
  intros Hnot. unfold VALID_MODEL_NAMES_LOOKUP.
  apply not_elem_of_list_to_map_1. exact Hnot.
Qed.

Lemma validateModelName_valid (name : string) :
  name ∈ valid_model_names → validateModelName name = Normal tt.
Proof.
  intros Hin. unfold validateModelName. simpl.
  now rewrite (lookup_valid_name _ Hin).
Qed.

(** A name that is neither valid nor inherited is refused. *)
Lemma validateModelName_refuses (name : string) :
  name ∉ valid_model_names → name ∉ Object_prototype →
  ∃ message, validateModelName name = Throw (Error message).
Proof.
  intros Hnot Hproto. unfold validateModelName. simpl.
  rewrite (lookup_other_name _ Hnot). unfold inherited.
  rewrite decide_False by exact Hproto. simpl. eauto.
Qed.

(** A name found on the prototype chain passes, although it is not in the
    table. *)
Lemma validateModelName_inherited (name : string) :
  name ∉ valid_model_names → name ∈ Object_prototype →
  validateModelName name = Normal tt.
Proof.
  intros Hnot Hproto. unfold validateModelName. simpl.
  rewrite (lookup_other_name _ Hnot). unfold inherited.
  rewrite decide_True by exact Hproto. reflexivity.
Qed.

Lemma await_lift_Normal {A B} (a : A) (k : A -> Http B) :
  await (lift (Normal a)) k = k a.
Proof. unfold await, lift. now destruct (k a). Qed.

Lemma await_lift_Throw {A B} (e : exn) (k : A -> Http B) :
  await (lift (Throw e)) k = ([], Throw e).
Proof. reflexivity. Qed.

(** A request followed by nothing else: one request is issued, however
    it settles. *)
Lemma requests_single (m : Method) (url : string) (data : option any) :
  requests (await (request m url data) (fun _ => resolved tt)) = [mkRequest m url data].
Proof.
  unfold requests, await, request. destruct (axios _); reflexivity.
Qed.

Lemma listURL_after_validation (type : string) :
  validateModelName type = Normal tt →
  listURL type None = Normal (API_URL +:+ "/rest/" +:+ type).
Proof.
  intros Hok. unfold listURL, serializeParams. rewrite Hok.
  unfold bind. now rewrite append_nil_r.
Qed.

Lemma modelURL_after_validation (type id : string) :
  validateModelName type = Normal tt →
  modelURL type id None = Normal (API_URL +:+ "/rest/" +:+ type +:+ "/" +:+ id).
Proof.
  intros Hok. unfold modelURL. rewrite Hok, (listURL_after_validation _ Hok).
  unfold bind, serializeParams. now rewrite append_nil_r, !append_assoc.
Qed.

(** Once the name has passed, each operation issues exactly one request. *)
Lemma modelRequest_after_validation (type : string) (op : ModelOp) :
  validateModelName type = Normal tt →
  ∃ req, requests (modelRequest type op) = [req]
       ∧ req_url req =
           match op with
           | Create _ => API_URL +:+ "/rest/" +:+ type
           | Update id _ _ | Destroy id => API_URL +:+ "/rest/" +:+ type +:+ "/" +:+ id
           end
       ∧ req_method req =
           match op with Create _ => POST | Update _ _ _ => PATCH | Destroy _ => DELETE end.
Proof.
  intros Hok.
  destruct op as [model|id model only|id];
    unfold modelRequest, createModel, updateModel, destroyModel;
    rewrite Hok, ?(listURL_after_validation _ Hok),
            ?(modelURL_after_validation _ _ Hok), !await_lift_Normal,
            requests_single;
    eexists; (split; [reflexivity|]); split; reflexivity.
Qed.

(** When the name is refused nothing is sent and the promise rejects. *)
Lemma modelRequest_refused (type : string) (op : ModelOp) (e : exn) :
  validateModelName type = Throw e →
  modelRequest type op = ([], Throw e).
Proof.
  intros Hbad.
  destruct op; unfold modelRequest, createModel, updateModel, destroyModel;
    now rewrite Hbad, await_lift_Throw.
Qed.

Lemma modelRequest_valid (type : string) (op : ModelOp) :
  type ∈ valid_model_names → ∃ req, requests (modelRequest type op) = [req].
Proof.
  intros Hin.
  destruct (modelRequest_after_validation type op (validateModelName_valid _ Hin))
    as (req & Hreq & _).
  eauto.
Qed.

End ModelNames.

(** C8 (where the code departs from it).  [constructor] is not one of the
    nine valid model names, yet [validateModelName] lets it through,
    because the lookup in [VALID_MODEL_NAMES_LOOKUP] also finds what the
    table inherits from [Object.prototype]; [createModel], [updateModel]
    and [destroyModel] then send their request to
    [API_URL/rest/constructor]. *)
Theorem modelRequest_constructor_is_sent `{Imports} (op : ModelOp) :
  ("constructor" ∉ valid_model_names)
  ∧ validateModelName "constructor" = Normal tt
  ∧ ∃ req, requests (modelRequest "constructor" op) = [req]
         ∧ req_url req =
             match op with
             | Create _ => API_URL +:+ "/rest/constructor"
             | Update id _ _ | Destroy id => API_URL +:+ "/rest/constructor/" +:+ id
             end.
Proof.
  assert (Hnot : "constructor" ∉ valid_model_names).
  { unfold valid_model_names. rewrite !elem_of_cons, elem_of_nil.
    intuition discriminate. }
  assert (Hok : validateModelName "constructor" = Normal tt).
  { apply validateModelName_inherited; [exact Hnot|].
    unfold Object_prototype. apply list_elem_of_here. }
  split; [exact Hnot|]. split; [exact Hok|].
  destruct (modelRequest_after_validation "constructor" op Hok) as (req & Hreq & Hurl & _).
  exists req. split; [exact Hreq|]. rewrite Hurl. destruct op; reflexivity.
Qed.

(** ** Comment actions *)

Section CommentActions.
Context `{Imports}.

Lemma makeCommentAction_empty (path : string) :
  makeCommentAction path [] = ([], Normal tt).
Proof. reflexivity. Qed.

Lemma makeCommentAction_requests (path : string) (ids : list string) :
  requests (makeCommentAction path ids) =
    match ids with
    | [] => []
    | _ :: _ =>
        [ mkRequest POST (serviceURL "commentActions" (Some path) None)
            (Some (Obj {[ "data" := Arr (Str <$> ids);
                          "runImmediately" := Bool true ]})) ]
    end.
Proof.
  destruct ids as [|i ids]; [reflexivity|].
  unfold makeCommentAction.
  change (length (i :: ids) <=? 0)%nat with false. cbv iota.
  apply requests_single.
Qed.

Lemma batchRequest_makeCommentAction (a : BatchAction) (ids : list string) :
  batchRequest a ids = makeCommentAction (batch_path a) ids.
Proof. destruct a; reflexivity. Qed.

Lemma batch_path_endpoint (a : BatchAction) : batch_endpoint (batch_path a).
Proof.
  unfold batch_endpoint, fixed_batch_paths.
  destruct a; simpl; eauto; left;
    rewrite !elem_of_cons; tauto.
Qed.

End CommentActions.

(** C9.  Each of the ten batch comment actions, called with no ids, sends
    nothing and completes at once; called with at least one id it sends
    exactly one POST, to its [commentActions] endpoint, whose body carries
    all the ids. *)
Theorem batch_action_sends_one_post `{Imports} (a : BatchAction) (ids : list string) :
  batchRequest a [] = ([], Normal tt)
  ∧ requests (batchRequest a ids) =
      match ids with
      | [] => []
      | _ :: _ =>
          [ mkRequest POST (serviceURL "commentActions" (Some (batch_path a)) None)
              (Some (Obj {[ "data" := Arr (Str <$> ids);
                            "runImmediately" := Bool true ]})) ]
      end.
Proof.
  rewrite !batchRequest_makeCommentAction. split.
  - apply makeCommentAction_empty.
  - apply makeCommentAction_requests.
Qed.

(** C5, as stated, fails: [resetCommentsRequest] posts to the [reset]
    endpoint, which is none of approve, reject, defer, highlight. *)
Lemma reset_is_not_a_moderation_outcome :
  requests (resetCommentsRequest (H := sample_imports) ["17"]) =
    [ mkRequest POST "http://localhost:8080/services/commentActions/reset"
        (Some (Obj {[ "data" := Arr [Str "17"]; "runImmediately" := Bool true ]})) ]
  ∧ "http://localhost:8080/services/commentActions/reset" ∉
      (fun p => serviceURL (H := sample_imports) "commentActions" (Some p) None)
        <$> moderation_outcomes.
Proof.
  split; [reflexivity|].
  unfold moderation_outcomes. rewrite !fmap_cons, fmap_nil.
  rewrite !elem_of_cons, elem_of_nil.
  intros Hin. repeat (destruct Hin as [Hin|Hin]; [discriminate Hin|]). exact Hin.
Qed.

(** C5, amended.  Every request of a batch comment action goes to a
    [commentActions] endpoint among highlight, reset, approve,
    approve-flags, resolve-flags, defer, reject, reject-flags,
    [tag/<tagId>] and [tagCommentSummaryScores/<tagId>]; the four
    moderation outcomes approve, reject, defer and highlight are among
    these endpoints, each with a request function of its own. *)
Theorem batch_actions_use_listed_endpoints `{Imports} :
  (∀ (a : BatchAction) (ids : list string),
     Forall (fun req => ∃ path, batch_endpoint path ∧ req_method req = POST ∧
                        req_url req = serviceURL "commentActions" (Some path) None)
            (requests (batchRequest a ids)))
  ∧ Forall batch_endpoint moderation_outcomes
  ∧ (∀ (id : string) (ids : list string),
       req_url <$> requests (approveCommentsRequest (id :: ids))
         = [serviceURL "commentActions" (Some "/approve") None]
     ∧ req_url <$> requests (rejectCommentsRequest (id :: ids))
         = [serviceURL "commentActions" (Some "/reject") None]
     ∧ req_url <$> requests (deferCommentsRequest (id :: ids))
         = [serviceURL "commentActions" (Some "/defer") None]
     ∧ req_url <$> requests (highlightCommentsRequest (id :: ids))
         = [serviceURL "commentActions" (Some "/highlight") None]).
Proof.
  split; [|split].
  - intros a ids. rewrite batchRequest_makeCommentAction, makeCommentAction_requests.
    destruct ids as [|i ids]; constructor; [|constructor].
    exists (batch_path a). split; [apply batch_path_endpoint|]. split; reflexivity.
  - unfold moderation_outcomes, batch_endpoint, fixed_batch_paths.
    repeat constructor; left; rewrite !elem_of_cons; tauto.
  - intros id ids.
    unfold approveCommentsRequest, rejectCommentsRequest, deferCommentsRequest,
           highlightCommentsRequest.
    rewrite !makeCommentAction_requests. repeat split; reflexivity.
Qed.

(** ** The notifier *)

Lemma strict_eq_str_true (v : any) (s : string) :
  strict_eq_str v s = true ↔ v = Str s.
Proof.
  destruct v; simpl; try (split; [discriminate|congruence]).
  rewrite String.eqb_eq. split; congruence.
Qed.

Section NotifierFacts.
Context `{Imports}.

Lemma onmessage_signal_up_run (h : Handlers) (st : State) :
  onmessage_signal_up h st =
    if gotSystem st && gotArticles st && gotUser st && negb (socketUp st)
    then (set_socketUp true st, [websocketStateHandler h STATUS_UP], Normal tt)
    else (st, [], Normal tt).
Proof.
  unfold onmessage_signal_up, and_then, read, emit, modify, ret. simpl.
  destruct (gotSystem st && gotArticles st && gotUser st && negb (socketUp st));
    reflexivity.
Qed.

Lemma onmessage_dispatch_cases (h : Handlers) (body : any) (st : State) :
  match onmessage_dispatch h body st with
  | (st', calls, Normal _) => dispatched h body st st' calls
  | (st', calls, Throw _) => st' = st ∧ calls = []
  end.
Proof.
  unfold onmessage_dispatch, and_then, eval, emit, modify, ret.
  destruct (get body "type") as [ty|e] eqn:Hty; [|split; reflexivity].
  destruct (strict_eq_str ty "system") eqn:E1.
  { apply strict_eq_str_true in E1 as ->.
    destruct (get body "data") as [d|e] eqn:Hd; [|split; reflexivity].
    destruct (packSystemData d) as [p|e] eqn:Hp; [|split; reflexivity].
    simpl. eapply dispatched_system; eauto. }
  destruct (strict_eq_str ty "global") eqn:E2.
  { apply strict_eq_str_true in E2 as ->.
    destruct (get body "data") as [d|e] eqn:Hd; [|split; reflexivity].
    destruct (packArticleData d) as [p|e] eqn:Hp; [|split; reflexivity].
    simpl. eapply dispatched_global; eauto. }
  destruct (strict_eq_str ty "user") eqn:E3.
  { apply strict_eq_str_true in E3 as ->.
    destruct (get body "data") as [d|e] eqn:Hd; [|split; reflexivity].
    simpl. eapply dispatched_user; eauto. }
  destruct (strict_eq_str ty "article-update") eqn:E4.
  { apply strict_eq_str_true in E4 as ->.
    destruct (get body "data") as [d|e] eqn:Hd; [|split; reflexivity].
    destruct (packArticleUpdate d) as [p|e] eqn:Hp; [|split; reflexivity].
    simpl. eapply dispatched_update; eauto. }
  simpl. eapply dispatched_other; eauto.
  rewrite !elem_of_cons, elem_of_nil.
  intros [->|[->|[->|[->|[]]]]]; simpl in *; discriminate.
Qed.

End NotifierFacts.

Lemma alter_at_end {A} (f : A -> A) (l : list A) (x : A) :
  alter f (length l) (l ++ [x]) = l ++ [f x].
Proof.
  rewrite alter_app_r_alt by lia. now rewrite Nat.sub_diag.
Qed.

Section NotifierRuns.
Context `{Imports}.

Lemma checkSocketAlive_run (h : Handlers) (st : State) :
  checkSocketAlive h st =
    if ws_is_open st then (st, [], Normal tt)
    else (reconnected h st, [new_myws (length (sockets st)) (notifier_url st)], Normal tt).
Proof.
  unfold checkSocketAlive, and_then, read. simpl.
  destruct (ws_is_open st); simpl; [reflexivity|].
  unfold reconnected, notifier_url, set_sockets, set_ws. simpl.
  rewrite alter_at_end. simpl. rewrite alter_at_end. reflexivity.
Qed.

Lemma connectNotifier_run (h : Handlers) (st : State) :
  connectNotifier h st =
    let '(st1, calls, _) := checkSocketAlive h st in
    (set_intervalTimer (Some (length (intervals st)))
       (set_intervals (intervals st ++ [mkInterval h 10000 true]) st1),
     calls, Normal tt).
Proof.
  unfold connectNotifier, and_then at 1. rewrite checkSocketAlive_run.
  destruct (ws_is_open st); simpl; rewrite ?app_nil_r; reflexivity.
Qed.

Lemma onclose_handler_run (h : Handlers) (code : Z) (st : State) :
  onclose_handler h code st =
    if (code =? 1005)%Z then
      (st, [console_log "websocket closed" [Num (inject_Z code)];
            websocketStateHandler h STATUS_RESET], Normal tt)
    else
      (set_ws None (set_socketUp false st),
       [console_log "websocket closed" [Num (inject_Z code)];
        websocketStateHandler h
          (if negb (gotSystem st) && negb (gotArticles st) && negb (gotUser st)
           then STATUS_RESET else STATUS_DOWN)],
       Normal tt).
Proof.
  unfold onclose_handler, and_then, emit, read, modify. simpl.
  destruct (code =? 1005)%Z; simpl; [reflexivity|].
  destruct (negb (gotSystem st) && negb (gotArticles st) && negb (gotUser st));
    reflexivity.
Qed.

Lemma onopen_handler_run (h : Handlers) (st : State) :
  onopen_handler h st =
    match ws st with
    | None => (st, [console_log "opened websocket" []], Throw TypeError)
    | Some s =>
        (set_sockets (alter (with_onclose (Some h)) s (sockets st)) st,
         [console_log "opened websocket" []], Normal tt)
    end.
Proof.
  unfold onopen_handler, assign_ws, and_then, emit, read, modify, throw. simpl.
  destruct (ws st); reflexivity.
Qed.

Lemma disconnectNotifier_run (st : State) :
  disconnectNotifier st =
    let st1 := match intervalTimer st with
               | None => st
               | Some t =>
                   set_intervals
                     (alter (fun iv => mkInterval (callback iv) (delay iv) false) t
                            (intervals st)) st
               end in
    match ws st with
    | None => (st1, [], Throw TypeError)
    | Some s =>
        (set_sockets
           (alter (fun o => match readyState o with
                            | CONNECTING | OPEN => with_readyState CLOSING o
                            | _ => o
                            end) s (sockets st)) st1,
         [ws_close s], Normal tt)
    end.
Proof.
  unfold disconnectNotifier, clearInterval, call_ws_close, and_then, emit, read,
    modify, throw, ret.
  destruct (intervalTimer st); cbn; destruct (ws st); reflexivity.
Qed.

Lemma onmessage_handler_cases (h : Handlers) (data : string) (st : State) :
  match onmessage_handler h data st with
  | (st', calls, Normal _) =>
      ∃ body st1 c1,
        JSON_parse data = Normal body ∧ dispatched h body st st1 c1 ∧
        onmessage_signal_up h st1 = (st', drop (length c1) calls, Normal tt) ∧
        take (length c1) calls = c1
  | (st', calls, Throw _) => st' = st ∧ calls = []
  end.
Proof.
  unfold onmessage_handler, and_then at 1, eval.
  destruct (JSON_parse data) as [body|e]; [|split; reflexivity].
  unfold and_then.
  pose proof (onmessage_dispatch_cases h body st) as Hd.
  destruct (onmessage_dispatch h body st) as [[st1 c1] [[]|e]].
  - rewrite onmessage_signal_up_run.
    destruct (gotSystem st1 && gotArticles st1 && gotUser st1 && negb (socketUp st1))
      eqn:Hup;
      cbv beta iota; exists body, st1, c1;
      rewrite app_nil_l, drop_app_length, take_app_length, onmessage_signal_up_run, Hup;
      auto.
  - destruct Hd as [-> ->]. split; reflexivity.
Qed.

End NotifierRuns.

Section NotifierSteps.
Context `{Imports}.

Lemma and_then_read {A B} (f : State -> A) (k : A -> M B) (st : State) :
  and_then (read f) k st = k (f st) st.
Proof. unfold and_then, read. now destruct (k (f st) st) as [[? ?] ?]. Qed.

Lemma and_then_modify {B} (f : State -> State) (k : unit -> M B) (st : State) :
  and_then (modify f) k st = k tt (f st).
Proof. unfold and_then, modify. now destruct (k tt (f st)) as [[? ?] ?]. Qed.

Lemma and_then_ret {A B} (a : A) (k : A -> M B) (st : State) :
  and_then (ret a) k st = k a st.
Proof. unfold and_then, ret. now destruct (k a st) as [[? ?] ?]. Qed.

Lemma and_then_handler_of {B} (f : WebSocket -> option Handlers) (s : nat)
    (k : option Handlers -> M B) (st : State) :
  and_then (handler_of f s) k st = k (sockets st !! s ≫= f) st.
Proof.
  unfold and_then, handler_of, read, ret. cbn.
  destruct (sockets st !! s); cbn;
    match goal with |- context [k ?x st] => now destruct (k x st) as [[? ?] ?] end.
Qed.

Lemma step_Tick_run (t : nat) (st : State) :
  step (Tick t) st =
    match intervals st !! t with
    | Some iv => if active iv then checkSocketAlive (callback iv) st
                 else (st, [], Normal tt)
    | None => (st, [], Normal tt)
    end.
Proof.
  unfold step. rewrite and_then_read.
  destruct (intervals st !! t) as [iv|]; [|reflexivity].
  destruct (active iv); reflexivity.
Qed.

Lemma handler_after_readyState (f : WebSocket -> option Handlers) (s : nat)
    (r : ReadyState) (st : State) :
  (∀ o, f (with_readyState r o) = f o) →
  sockets (with_state_of s r st) !! s ≫= f = sockets st !! s ≫= f.
Proof.
  intros Hf. unfold with_state_of. cbn. rewrite list_lookup_alter_eq.
  destruct (sockets st !! s); cbn; [apply Hf|reflexivity].
Qed.

Lemma step_SocketOpened_run (s : nat) (st : State) :
  step (SocketOpened s) st =
    match sockets st !! s ≫= onopen with
    | Some h => onopen_handler h (with_state_of s OPEN st)
    | None => (with_state_of s OPEN st, [], Normal tt)
    end.
Proof.
  unfold step, set_readyState.
  rewrite and_then_modify, and_then_handler_of. fold (with_state_of s OPEN st).
  rewrite (handler_after_readyState onopen) by reflexivity.
  destruct (sockets st !! s) as [o|]; cbn; [|reflexivity].
  destruct (onopen o) as [h|]; reflexivity.
Qed.

Lemma step_SocketClosed_run (s : nat) (code : Z) (st : State) :
  step (SocketClosed s code) st =
    match sockets st !! s ≫= onclose with
    | Some h => onclose_handler h code (with_state_of s CLOSED st)
    | None => (with_state_of s CLOSED st, [], Normal tt)
    end.
Proof.
  unfold step, set_readyState.
  rewrite and_then_modify, and_then_handler_of. fold (with_state_of s CLOSED st).
  rewrite (handler_after_readyState onclose) by reflexivity.
  destruct (sockets st !! s) as [o|]; cbn; [|reflexivity].
  destruct (onclose o) as [h|]; reflexivity.
Qed.

Lemma step_SocketMessage_run (s : nat) (data : string) (st : State) :
  step (SocketMessage s data) st =
    match sockets st !! s ≫= onmessage with
    | Some h => onmessage_handler h data st
    | None => (st, [], Normal tt)
    end.
Proof.
  unfold step. rewrite and_then_handler_of.
  destruct (sockets st !! s) as [o|]; cbn; [|reflexivity].
  destruct (onmessage o) as [h|]; reflexivity.
Qed.

End NotifierSteps.

Section NotifierInvariants.
Context `{Imports}.

Lemma message_step_cases (s : nat) (data : string) (st : State) :
  match step (SocketMessage s data) st with
  | (st', calls, r) =>
      (st' = st ∧ calls = []) ∨
      (∃ h body st1 c1,
          JSON_parse data = Normal body ∧ dispatched h body st st1 c1 ∧ r = Normal tt ∧
          ((gotSystem st1 && gotArticles st1 && gotUser st1 && negb (socketUp st1) = true
            ∧ st' = set_socketUp true st1
            ∧ calls = c1 ++ [websocketStateHandler h STATUS_UP])
           ∨ (gotSystem st1 && gotArticles st1 && gotUser st1 && negb (socketUp st1) = false
              ∧ st' = st1 ∧ calls = c1)))
  end.
Proof.
  rewrite step_SocketMessage_run.
  destruct (sockets st !! s ≫= onmessage) as [h|]; [|left; split; reflexivity].
  pose proof (onmessage_handler_cases h data st) as Hc.
  destruct (onmessage_handler h data st) as [[st' calls] [[]|e]]; [|left; exact Hc].
  destruct Hc as (body & st1 & c1 & Hparse & Hd & Hsig & Htake).
  right. exists h, body, st1, c1. split; [exact Hparse|]. split; [exact Hd|].
  split; [reflexivity|].
  rewrite onmessage_signal_up_run in Hsig.
  rewrite <- (take_drop (length c1) calls), Htake.
  destruct (gotSystem st1 && gotArticles st1 && gotUser st1 && negb (socketUp st1));
    injection Hsig as <- <-; [left|right]; rewrite ?app_nil_r; auto.
Qed.

(** A dispatch touches nothing but the flag of its type and tells no
    status. *)
Lemma dispatched_frame (h : Handlers) (body : any) (st st1 : State) (c1 : list Call) :
  dispatched h body st st1 c1 →
  socketUp st1 = socketUp st ∧ ws st1 = ws st ∧ sockets st1 = sockets st
  ∧ intervals st1 = intervals st ∧ intervalTimer st1 = intervalTimer st
  ∧ token st1 = token st
  ∧ status_calls c1 = [] ∧ opened_urls c1 = []
  ∧ (gotSystem st = true → gotSystem st1 = true)
  ∧ (gotArticles st = true → gotArticles st1 = true)
  ∧ (gotUser st = true → gotUser st1 = true)
  ∧ (gotSystem st1 = true → gotSystem st = true ∨ get body "type" = Normal (Str "system"))
  ∧ (gotArticles st1 = true → gotArticles st = true ∨ get body "type" = Normal (Str "global"))
  ∧ (gotUser st1 = true → gotUser st = true ∨ get body "type" = Normal (Str "user")).
Proof.
  intros Hd. destruct Hd; cbn; repeat split; auto.
Qed.

(** What an event other than a message leaves alone. *)
Lemma other_step_frame (e : Event) (st : State) :
  (∀ s data, e ≠ SocketMessage s data) →
  match step e st with
  | (st', calls, _) =>
      gotSystem st' = gotSystem st ∧ gotArticles st' = gotArticles st
      ∧ gotUser st' = gotUser st
      ∧ (∀ h, (h, STATUS_UP) ∉ status_calls calls)
      ∧ (socketUp st' = socketUp st
         ∨ (socketUp st' = false
            ∧ ∃ h, status_calls calls =
                     [(h, if negb (gotSystem st) && negb (gotArticles st) && negb (gotUser st)
                          then STATUS_RESET else STATUS_DOWN)]))
  end.
Proof.
  intros Hmsg. destruct e as [h| |t|s|s data|s code|tok].
  - cbn [step]. rewrite connectNotifier_run, checkSocketAlive_run.
    destruct (ws_is_open st); cbn; repeat split; auto; intros h' Hin; inversion Hin.
  - cbn [step]. rewrite disconnectNotifier_run.
    destruct (intervalTimer st), (ws st); cbn; repeat split; auto;
      intros h' Hin; inversion Hin.
  - rewrite step_Tick_run. destruct (intervals st !! t) as [iv|].
    + destruct (active iv).
      * rewrite checkSocketAlive_run.
        destruct (ws_is_open st); cbn; repeat split; auto; intros h' Hin; inversion Hin.
      * cbn; repeat split; auto; intros h' Hin; inversion Hin.
    + cbn; repeat split; auto; intros h' Hin; inversion Hin.
  - rewrite step_SocketOpened_run. destruct (sockets st !! s ≫= onopen) as [h|].
    + rewrite onopen_handler_run. cbn.
      destruct (ws st); cbn; repeat split; auto; intros h' Hin; inversion Hin.
    + cbn; repeat split; auto; intros h' Hin; inversion Hin.
  - exfalso. now apply (Hmsg s data).
  - rewrite step_SocketClosed_run. destruct (sockets st !! s ≫= onclose) as [h|].
    + rewrite onclose_handler_run. destruct (code =? 1005)%Z; cbn.
      * repeat split; auto. intros h' Hin.
        apply list_elem_of_singleton in Hin. discriminate Hin.
      * repeat split; eauto. intros h' Hin.
        apply list_elem_of_singleton in Hin.
        destruct (negb (gotSystem st) && negb (gotArticles st) && negb (gotUser st));
          discriminate Hin.
    + cbn; repeat split; auto; intros h' Hin; inversion Hin.
  - cbn; repeat split; auto; intros h' Hin; inversion Hin.
Qed.

End NotifierInvariants.

Section NotifierTraces.
Context `{Imports}.

Lemma status_calls_app (a b : list Call) :
  status_calls (a ++ b) = status_calls a ++ status_calls b.
Proof. apply omap_app. Qed.

Lemma run_app (a b : list Event) (st : State) :
  run (a ++ b) st =
    ((run b (run a st).1).1, (run a st).2 ++ (run b (run a st).1).2).
Proof.
  revert st. induction a as [|e a IH]; intros st; cbn [app run].
  - cbn. now destruct (run b st).
  - destruct (step e st) as [[st1 c1] r]. rewrite IH.
    destruct (run a st1) as [st2 c2]. cbn.
    destruct (run b st2) as [st3 c3]. cbn. now rewrite app_assoc.
Qed.

Lemma state_after_app (a b : list Event) (st : State) :
  state_after (a ++ b) st = state_after b (state_after a st).
Proof. unfold state_after. now rewrite run_app. Qed.

Lemma state_after_cons (e : Event) (evs : list Event) (st : State) :
  state_after (e :: evs) st = state_after evs (step e st).1.1.
Proof.
  unfold state_after. cbn [run]. destruct (step e st) as [[st1 c1] r]. cbn.
  now destruct (run evs st1).
Qed.

Lemma state_after_single (e : Event) (st : State) :
  state_after [e] st = (step e st).1.1.
Proof. now rewrite state_after_cons. Qed.

Lemma calls_during_cons (e : Event) (evs : list Event) (st : State) :
  calls_during (e :: evs) st = calls_of_step e st ++ calls_during evs (step e st).1.1.
Proof.
  unfold calls_during, calls_of_step. cbn [run].
  destruct (step e st) as [[st1 c1] r]. cbn. now destruct (run evs st1).
Qed.

Lemma received_singleton (ty : string) (s : nat) (data : string) (body : any) :
  JSON_parse data = Normal body → get body "type" = Normal (Str ty) →
  received ty [SocketMessage s data].
Proof.
  intros Hp Ht. exists s, data, body. split; [apply list_elem_of_here|]. auto.
Qed.

Lemma received_cons (ty : string) (e : Event) (evs : list Event) :
  received ty [e] ∨ received ty evs → received ty (e :: evs).
Proof.
  intros [(s & d & b & Hin & Hp & Ht)|(s & d & b & Hin & Hp & Ht)];
    exists s, d, b; (split; [|auto]).
  - apply list_elem_of_singleton in Hin as ->. apply list_elem_of_here.
  - now apply list_elem_of_further.
Qed.

(** A flag that is set after an event was set before it, or the event is a
    message of the flag's type. *)
Lemma step_flag_provenance (e : Event) (st : State) :
  let st' := (step e st).1.1 in
  (gotSystem st' = true → gotSystem st = true ∨ received "system" [e])
  ∧ (gotArticles st' = true → gotArticles st = true ∨ received "global" [e])
  ∧ (gotUser st' = true → gotUser st = true ∨ received "user" [e]).
Proof.
  destruct e as [h| |t|s|s data|s code|tok];
    try (match goal with
         | |- context [step ?e st] =>
             pose proof (other_step_frame e st ltac:(discriminate)) as Hf;
             destruct (step e st) as [[st' calls] r]; cbn;
             destruct Hf as (-> & -> & -> & _); auto
         end).
  pose proof (message_step_cases s data st) as Hc.
  destruct (step (SocketMessage s data) st) as [[st' calls] r]. cbn [fst snd].
  destruct Hc as [[-> _]|(h & body & st1 & c1 & Hp & Hd & _ & Hcase)]; [auto|].
  apply dispatched_frame in Hd.
  destruct Hd as (_ & _ & _ & _ & _ & _ & _ & _ & _ & _ & _ & Hs & Ha & Hu).
  assert (Hst : gotSystem st' = gotSystem st1 ∧ gotArticles st' = gotArticles st1
                ∧ gotUser st' = gotUser st1).
  { destruct Hcase as [(_ & -> & _)|(_ & -> & _)]; cbn; auto. }
  destruct Hst as (-> & -> & ->).
  repeat split; intros Hflag;
    [destruct (Hs Hflag)|destruct (Ha Hflag)|destruct (Hu Hflag)];
    eauto using received_singleton.
Qed.

Lemma flags_received (evs : list Event) (st0 : State) :
  let st := state_after evs st0 in
  (gotSystem st = true → gotSystem st0 = true ∨ received "system" evs)
  ∧ (gotArticles st = true → gotArticles st0 = true ∨ received "global" evs)
  ∧ (gotUser st = true → gotUser st0 = true ∨ received "user" evs).
Proof.
  revert st0. induction evs as [|e evs IH]; intros st0.
  - cbn. auto.
  - cbn zeta. rewrite state_after_cons.
    destruct (IH (step e st0).1.1) as (Is & Ia & Iu).
    destruct (step_flag_provenance e st0) as (Ps & Pa & Pu).
    repeat split; intros Hflag;
      [destruct (Is Hflag) as [Hb|Hr]; [destruct (Ps Hb)|]
      |destruct (Ia Hflag) as [Hb|Hr]; [destruct (Pa Hb)|]
      |destruct (Iu Hflag) as [Hb|Hr]; [destruct (Pu Hb)|]];
      auto using received_cons.
Qed.

Lemma received_app_r (ty : string) (a b : list Event) :
  received ty b → received ty (a ++ b).
Proof.
  intros (s & d & body & Hin & Hp & Ht). exists s, d, body.
  split; [apply elem_of_app; now right|auto].
Qed.

Lemma received_app_l (ty : string) (a b : list Event) :
  received ty a → received ty (a ++ b).
Proof.
  intros (s & d & body & Hin & Hp & Ht). exists s, d, body.
  split; [apply elem_of_app; now left|auto].
Qed.

(** The step that signals [STATUS_UP]: the socket was not up before, it is
    up after, and nothing else is signalled. *)
Lemma step_signals_up (h : Handlers) (e : Event) (st : State) :
  signals h STATUS_UP e st →
  socketUp st = false
  ∧ is_up (step e st).1.1
  ∧ status_calls (calls_of_step e st) = [(h, STATUS_UP)].
Proof.
  unfold signals, calls_of_step.
  destruct e as [h0| |t|s|s data|s code|tok];
    try (match goal with
         | |- context [step ?e st] =>
             pose proof (other_step_frame e st ltac:(discriminate)) as Hf;
             destruct (step e st) as [[st' calls] r]; cbn;
             destruct Hf as (_ & _ & _ & Hno & _); intros Hin;
             now destruct (Hno h)
         end).
  pose proof (message_step_cases s data st) as Hc.
  destruct (step (SocketMessage s data) st) as [[st' calls] r]. cbn [fst snd].
  destruct Hc as [[-> ->]|(h1 & body & st1 & c1 & Hp & Hd & _ & Hcase)].
  { intros Hin. inversion Hin. }
  apply dispatched_frame in Hd.
  destruct Hd as (Hup & _ & _ & _ & _ & _ & Hsc & _).
  destruct Hcase as [(Hb & -> & ->)|(Hb & -> & ->)].
  - rewrite status_calls_app, Hsc. cbn. intros Hin.
    apply list_elem_of_singleton in Hin. injection Hin as ->.
    apply andb_prop in Hb as [Hb Hn]. apply andb_prop in Hb as [Hb Hgu].
    apply andb_prop in Hb as [Hgs Hga]. apply negb_true_iff in Hn.
    split; [congruence|]. split; [|reflexivity].
    unfold is_up. cbn. auto.
  - rewrite Hsc. intros Hin. inversion Hin.
Qed.

(** While the socket is up, an event either leaves it up or tells
    [STATUS_DOWN]. *)
Lemma step_keeps_up (e : Event) (st : State) :
  is_up st →
  is_up (step e st).1.1 ∨ ∃ h, (h, STATUS_DOWN) ∈ status_calls (calls_of_step e st).
Proof.
  intros (Hup & Hs & Ha & Hu). unfold calls_of_step.
  assert (Hother : ∀ e', (∀ s data, e' ≠ SocketMessage s data) →
            is_up (step e' st).1.1
            ∨ ∃ h, (h, STATUS_DOWN) ∈ status_calls (step e' st).1.2).
  { intros e' Hne. pose proof (other_step_frame e' st Hne) as Hf.
    destruct (step e' st) as [[st' calls] r]. cbn [fst snd].
    destruct Hf as (Es & Ea & Eu & _ & [Eup|(_ & h & Hst)]).
    - left. unfold is_up. rewrite Es, Ea, Eu, Eup. auto.
    - right. exists h. rewrite Hst, Hs, Ha, Hu. cbn. apply list_elem_of_here. }
  destruct e as [h0| |t|s|s data|s code|tok]; try (apply Hother; discriminate).
  pose proof (message_step_cases s data st) as Hc.
  destruct (step (SocketMessage s data) st) as [[st' calls] r]. cbn [fst snd].
  left. destruct Hc as [[-> _]|(h1 & body & st1 & c1 & Hp & Hd & _ & Hcase)].
  { unfold is_up; auto. }
  apply dispatched_frame in Hd.
  destruct Hd as (Eup & _ & _ & _ & _ & _ & _ & _ & Ms & Ma & Mu & _).
  destruct Hcase as [(_ & -> & _)|(_ & -> & _)]; unfold is_up; cbn; auto.
  rewrite Eup. auto.
Qed.

Lemma run_keeps_up (evs : list Event) (st : State) :
  is_up st →
  is_up (state_after evs st) ∨ ∃ h, (h, STATUS_DOWN) ∈ status_calls (calls_during evs st).
Proof.
  revert st. induction evs as [|e evs IH]; intros st Hup; [now left|].
  rewrite state_after_cons, calls_during_cons, status_calls_app.
  destruct (step_keeps_up e st Hup) as [Hup'|[h Hdown]].
  - destruct (IH _ Hup') as [Hfin|[h Hdown]]; [now left|].
    right. exists h. apply elem_of_app. now right.
  - right. exists h. apply elem_of_app. now left.
Qed.

End NotifierTraces.

(** C1.  Start from the freshly loaded module and let any events happen.
    If handling an event signals [STATUS_UP], then a message of each of the
    types [system], [global] and [user] is among the events so far (this
    one included), and this step signals nothing else; and if a later
    event signals [STATUS_UP] again, then [STATUS_DOWN] was signalled in
    between. *)
Theorem status_up_after_all_three_and_once `{Imports}
    (tok : option string) (evs1 : list Event) (e1 : Event) (h1 : Handlers) :
  signals h1 STATUS_UP e1 (state_after evs1 (initial tok)) →
  (∀ ty, ty ∈ ["system"; "global"; "user"] → received ty (evs1 ++ [e1]))
  ∧ status_calls (calls_of_step e1 (state_after evs1 (initial tok))) = [(h1, STATUS_UP)]
  ∧ (∀ (evs2 : list Event) (e2 : Event) (h2 : Handlers),
       signals h2 STATUS_UP e2 (state_after (evs1 ++ e1 :: evs2) (initial tok)) →
       ∃ h, (h, STATUS_DOWN) ∈
              status_calls (calls_during evs2 (state_after (evs1 ++ [e1]) (initial tok)))).
Proof.
  intros Hsig.
  destruct (step_signals_up _ _ _ Hsig) as (Hdown & Hup & Hone).
  split; [|split; [exact Hone|]].
  - assert (Hst : state_after (evs1 ++ [e1]) (initial tok)
                  = (step e1 (state_after evs1 (initial tok))).1.1).
    { rewrite state_after_app. apply state_after_single. }
    destruct Hup as (_ & Hs & Ha & Hu). rewrite <- Hst in Hs, Ha, Hu.
    destruct (flags_received (evs1 ++ [e1]) (initial tok)) as (Fs & Fa & Fu).
    intros ty Hty. rewrite !elem_of_cons, elem_of_nil in Hty.
    destruct Hty as [->|[->|[->|[]]]].
    + destruct (Fs Hs) as [Hinit|Hr]; [discriminate Hinit|exact Hr].
    + destruct (Fa Ha) as [Hinit|Hr]; [discriminate Hinit|exact Hr].
    + destruct (Fu Hu) as [Hinit|Hr]; [discriminate Hinit|exact Hr].
  - intros evs2 e2 h2 Hsig2.
    destruct (step_signals_up _ _ _ Hsig2) as (Hdown2 & _ & _).
    replace (evs1 ++ e1 :: evs2) with ((evs1 ++ [e1]) ++ evs2) in Hdown2
      by (now rewrite <- app_assoc).
    rewrite state_after_app in Hdown2.
    assert (Hup1 : is_up (state_after (evs1 ++ [e1]) (initial tok))).
    { rewrite state_after_app, state_after_single. exact Hup. }
    destruct (run_keeps_up evs2 _ Hup1) as [(Hstill & _)|Hd]; [congruence|exact Hd].
Qed.

Section NotifierConnection.
Context `{Imports}.

Lemma opened_urls_app (a b : list Call) :
  opened_urls (a ++ b) = opened_urls a ++ opened_urls b.
Proof. apply omap_app. Qed.

Lemma new_myws_opened (sid : nat) (url : string) (cs : list Call) :
  new_myws sid url ∈ cs → url ∈ opened_urls cs.
Proof.
  intros Hin. unfold opened_urls. apply list_elem_of_omap.
  exists (new_myws sid url). auto.
Qed.

(** Only the liveness check constructs sockets, and it connects to
    [notifier_url]. *)
Lemma step_opened_urls (e : Event) (st : State) :
  opened_urls (calls_of_step e st) = []
  ∨ opened_urls (calls_of_step e st) = [notifier_url st].
Proof.
  unfold calls_of_step. destruct e as [h| |t|s|s data|s code|tok].
  - cbn [step]. rewrite connectNotifier_run, checkSocketAlive_run.
    destruct (ws_is_open st); cbn; auto.
  - cbn [step]. rewrite disconnectNotifier_run.
    destruct (ws st); cbn; auto.
  - rewrite step_Tick_run. destruct (intervals st !! t) as [iv|]; [|cbn; auto].
    destruct (active iv); [|cbn; auto]. rewrite checkSocketAlive_run.
    destruct (ws_is_open st); cbn; auto.
  - rewrite step_SocketOpened_run. destruct (sockets st !! s ≫= onopen) as [h|]; [|cbn; auto].
    rewrite onopen_handler_run. cbn. destruct (ws st); cbn; auto.
  - pose proof (message_step_cases s data st) as Hc.
    destruct (step (SocketMessage s data) st) as [[st' calls] r]. cbn [fst snd].
    destruct Hc as [[_ ->]|(h & body & st1 & c1 & _ & Hd & _ & Hcase)]; [auto|].
    apply dispatched_frame in Hd.
    destruct Hd as (_ & _ & _ & _ & _ & _ & _ & Ho & _).
    destruct Hcase as [(_ & _ & ->)|(_ & _ & ->)];
      rewrite ?opened_urls_app, Ho; auto.
  - rewrite step_SocketClosed_run.
    destruct (sockets st !! s ≫= onclose) as [h|]; [|cbn; auto].
    rewrite onclose_handler_run. destruct (code =? 1005)%Z; cbn; auto.
  - cbn. auto.
Qed.

Lemma replace_http_ws_http (rest : string) :
  replace_http_ws ("http" +:+ rest) = "ws" +:+ rest.
Proof.
  unfold replace_http_ws.
  assert (Hp : String.prefix "http" ("http" +:+ rest) = true)
    by (apply prefix_starts_with; now exists rest).
  rewrite Hp.
  change ("http" +:+ rest) with (String "h" (String "t" (String "t" (String "p" rest)))).
  cbn [String.length String.substring Nat.sub].
  now rewrite Nat.sub_0_r, substring_whole.
Qed.

Lemma notifier_url_ws (st : State) (tok rest : string) :
  API_URL = "http" +:+ rest → token st = Some tok →
  notifier_url st = "ws" +:+ rest +:+ "/services/updates/summary/?token=" +:+ tok.
Proof.
  intros Hapi Htok. unfold notifier_url, serviceURL, serializeParams.
  rewrite Hapi, Htok, append_assoc, replace_http_ws_http.
  unfold SERVICES_URL. now rewrite !append_nil_r.
Qed.

(** What an event that is not a call of [disconnectNotifier] does to the
    timers. *)
Lemma step_intervals (e : Event) (st : State) :
  e ≠ CallDisconnect →
  (∃ h, e = CallConnect h
        ∧ intervals (step e st).1.1 = intervals st ++ [mkInterval h 10000 true]
        ∧ intervalTimer (step e st).1.1 = Some (length (intervals st)))
  ∨ ((∀ h, e ≠ CallConnect h)
     ∧ intervals (step e st).1.1 = intervals st
     ∧ intervalTimer (step e st).1.1 = intervalTimer st).
Proof.
  intros Hne. destruct e as [h| |t|s|s data|s code|tok].
  - left. exists h. cbn [step]. rewrite connectNotifier_run, checkSocketAlive_run.
    destruct (ws_is_open st); cbn; auto.
  - contradiction.
  - right. split; [discriminate|]. rewrite step_Tick_run.
    destruct (intervals st !! t) as [iv|]; [|cbn; auto].
    destruct (active iv); [|cbn; auto]. rewrite checkSocketAlive_run.
    destruct (ws_is_open st); cbn; auto.
  - right. split; [discriminate|]. rewrite step_SocketOpened_run.
    destruct (sockets st !! s ≫= onopen) as [h|]; [|cbn; auto].
    rewrite onopen_handler_run. cbn. destruct (ws st); cbn; auto.
  - right. split; [discriminate|].
    pose proof (message_step_cases s data st) as Hc.
    destruct (step (SocketMessage s data) st) as [[st' calls] r]. cbn [fst snd].
    destruct Hc as [[-> _]|(h & body & st1 & c1 & _ & Hd & _ & Hcase)]; [auto|].
    apply dispatched_frame in Hd.
    destruct Hd as (_ & _ & _ & Hi & Ht & _).
    destruct Hcase as [(_ & -> & _)|(_ & -> & _)]; cbn; auto.
  - right. split; [discriminate|]. rewrite step_SocketClosed_run.
    destruct (sockets st !! s ≫= onclose) as [h|]; [|cbn; auto].
    rewrite onclose_handler_run. destruct (code =? 1005)%Z; cbn; auto.
  - right. split; [discriminate|]. cbn. auto.
Qed.

Lemma interval_kept (evs : list Event) (st : State) (t : nat) (iv : Interval) :
  CallDisconnect ∉ evs → intervals st !! t = Some iv →
  intervals (state_after evs st) !! t = Some iv.
Proof.
  revert st. induction evs as [|e evs IH]; intros st Hno Hiv; [exact Hiv|].
  rewrite state_after_cons. apply not_elem_of_cons in Hno as [Hne Hno].
  apply IH; [exact Hno|].
  destruct (step_intervals e st) as [(h & _ & -> & _)|(_ & -> & _)];
    [congruence| |exact Hiv].
  apply lookup_app_l_Some. exact Hiv.
Qed.

Lemma intervalTimer_kept (evs : list Event) (st : State) :
  CallDisconnect ∉ evs → (∀ h, CallConnect h ∉ evs) →
  intervalTimer (state_after evs st) = intervalTimer st.
Proof.
  revert st. induction evs as [|e evs IH]; intros st Hno Hnc; [reflexivity|].
  rewrite state_after_cons. apply not_elem_of_cons in Hno as [Hne Hno].
  rewrite IH; [|exact Hno|intros h Hin; apply (Hnc h); now apply list_elem_of_further].
  destruct (step_intervals e st) as [(h & -> & _)|(_ & _ & ->)];
    [congruence| |reflexivity].
  exfalso. apply (Hnc h). apply list_elem_of_here.
Qed.

End NotifierConnection.

(** ** Dispatch of incoming messages *)

Lemma get_succeeds_for_any_key (v : any) (k k' : string) (x : any) :
  get v k = Normal x → ∃ y, get v k' = Normal y.
Proof.
  destruct v; cbn; try discriminate; eauto.
  intros _. destruct (m !! k'); eauto.
Qed.

Lemma data_calls_app (a b : list Call) :
  data_calls (a ++ b) = data_calls a ++ data_calls b.
Proof. apply List.filter_app. Qed.

(** A handler that throws has called nobody and changed nothing. *)
Lemma onmessage_throw_calls_nobody `{Imports} (h : Handlers) (data : string)
    (st st' : State) (calls : list Call) (e : exn) :
  onmessage_handler h data st = (st', calls, Throw e) → st' = st ∧ calls = [].
Proof.
  intros Hrun. pose proof (onmessage_handler_cases h data st) as Hc.
  rewrite Hrun in Hc. exact Hc.
Qed.

(** C2, as stated, fails: a [system] message without a [data] member makes
    [packSystemData] throw before [systemDataHandler] is reached, so the
    message is delivered to no handler. *)
Lemma system_message_without_data_reaches_no_handler :
  JSON_parse (Imports := sample_imports) msg_system_bare
    = Normal (Obj {[ "type" := Str "system" ]})
  ∧ onmessage_handler (H := sample_imports) 0 msg_system_bare (initial None)
    = (initial None, [], Throw TypeError).
Proof. split; reflexivity. Qed.

(** C2, amended.  When [ws.onmessage] completes without an exception, the
    message was parsed and, of the four data callbacks, exactly the one for
    its [type] was called, once, with the packed payload: [system] goes to
    [systemDataHandler], [global] to [allArticlesDataHandler], [user] to
    [perUserDataHandler], [article-update] to [articleUpdateHandler]; a
    message of any other type reaches none of them. *)
Theorem message_goes_to_handler_of_its_type `{Imports}
    (h : Handlers) (data : string) (st st' : State) (calls : list Call) :
  onmessage_handler h data st = (st', calls, Normal tt) →
  ∃ body ty d,
    JSON_parse data = Normal body ∧ get body "type" = Normal ty
    ∧ get body "data" = Normal d
    ∧ (ty = Str "system" →
       ∃ p, packSystemData d = Normal p ∧ data_calls calls = [systemDataHandler h p])
    ∧ (ty = Str "global" →
       ∃ p, packArticleData d = Normal p ∧ data_calls calls = [allArticlesDataHandler h p])
    ∧ (ty = Str "user" → data_calls calls = [perUserDataHandler h d])
    ∧ (ty = Str "article-update" →
       ∃ p, packArticleUpdate d = Normal p ∧ data_calls calls = [articleUpdateHandler h p])
    ∧ (ty ∉ [Str "system"; Str "global"; Str "user"; Str "article-update"] →
       data_calls calls = []).
Proof.
  intros Hrun. pose proof (onmessage_handler_cases h data st) as Hc.
  rewrite Hrun in Hc. destruct Hc as (body & st1 & c1 & Hp & Hd & Hsig & Htake).
  assert (Hcalls : data_calls calls = data_calls c1).
  { rewrite <- (take_drop (length c1) calls), Htake, data_calls_app.
    rewrite onmessage_signal_up_run in Hsig.
    destruct (gotSystem st1 && gotArticles st1 && gotUser st1 && negb (socketUp st1));
      injection Hsig as _ <-; cbn; now rewrite app_nil_r. }
  rewrite Hcalls. exists body.
  destruct Hd as [d p Hty Hdata Hpack|d p Hty Hdata Hpack|d Hty Hdata
                 |d p Hty Hdata Hpack|ty Hty Hother].
  - exists (Str "system"), d. repeat split; auto; try discriminate.
    + intros _. eauto.
    + intros Hn. exfalso. apply Hn. apply list_elem_of_here.
  - exists (Str "global"), d. repeat split; auto; try discriminate.
    + intros _. eauto.
    + intros Hn. exfalso. apply Hn. rewrite !elem_of_cons. auto.
  - exists (Str "user"), d. repeat split; auto; try discriminate.
    intros Hn. exfalso. apply Hn. rewrite !elem_of_cons. auto.
  - exists (Str "article-update"), d. repeat split; auto; try discriminate.
    + intros _. eauto.
    + intros Hn. exfalso. apply Hn. rewrite !elem_of_cons. auto.
  - destruct (get_succeeds_for_any_key body "type" "data" ty Hty) as [d Hdata].
    exists ty, d. rewrite !elem_of_cons in Hother.
    repeat split; auto; intros ->; exfalso; apply Hother; auto.
Qed.

Lemma message_goes_to_handler_of_its_type_witness :
  onmessage_handler (H := sample_imports) 0 msg_user (initial None)
    = (set_gotUser true (initial None),
       [perUserDataHandler 0 (Obj {[ "assignments" := Num 3 ]})], Normal tt)
  ∧ ∃ body ty d,
    JSON_parse (Imports := sample_imports) msg_user = Normal body
    ∧ get body "type" = Normal ty
    ∧ get body "data" = Normal d
    ∧ (ty = Str "system" →
       ∃ p, packSystemData (H := sample_imports) d = Normal p
            ∧ data_calls [perUserDataHandler 0 (Obj {[ "assignments" := Num 3 ]})]
              = [systemDataHandler 0 p])
    ∧ (ty = Str "global" →
       ∃ p, packArticleData (H := sample_imports) d = Normal p
            ∧ data_calls [perUserDataHandler 0 (Obj {[ "assignments" := Num 3 ]})]
              = [allArticlesDataHandler 0 p])
    ∧ (ty = Str "user" →
       data_calls [perUserDataHandler 0 (Obj {[ "assignments" := Num 3 ]})]
       = [perUserDataHandler 0 d])
    ∧ (ty = Str "article-update" →
       ∃ p, packArticleUpdate (H := sample_imports) d = Normal p
            ∧ data_calls [perUserDataHandler 0 (Obj {[ "assignments" := Num 3 ]})]
              = [articleUpdateHandler 0 p])
    ∧ (ty ∉ [Str "system"; Str "global"; Str "user"; Str "article-update"] →
       data_calls [perUserDataHandler 0 (Obj {[ "assignments" := Num 3 ]})] = []).
Proof.
  split; [reflexivity|].
  apply (message_goes_to_handler_of_its_type (H := sample_imports) 0 msg_user
           (initial None) (set_gotUser true (initial None))).
  reflexivity.
Defined.

Lemma status_up_after_all_three_and_once_witness :
  signals (H := sample_imports) 0 STATUS_UP (SocketMessage 0 msg_user)
    (state_after (H := sample_imports) sample_history (initial (Some "abc")))
  ∧ (∀ ty, ty ∈ ["system"; "global"; "user"] →
     received (H := sample_imports) ty (sample_history ++ [SocketMessage 0 msg_user]))
  ∧ status_calls
      (calls_of_step (H := sample_imports) (SocketMessage 0 msg_user)
         (state_after (H := sample_imports) sample_history (initial (Some "abc"))))
    = [(0, STATUS_UP)]
  ∧ (∀ (evs2 : list Event) (e2 : Event) (h2 : Handlers),
       signals (H := sample_imports) h2 STATUS_UP e2
         (state_after (H := sample_imports)
            (sample_history ++ SocketMessage 0 msg_user :: evs2) (initial (Some "abc"))) →
       ∃ h, (h, STATUS_DOWN) ∈
              status_calls
                (calls_during (H := sample_imports) evs2
                   (state_after (H := sample_imports)
                      (sample_history ++ [SocketMessage 0 msg_user])
                      (initial (Some "abc"))))).
Proof.
  assert (Hup : signals (H := sample_imports) 0 STATUS_UP (SocketMessage 0 msg_user)
                  (state_after (H := sample_imports) sample_history (initial (Some "abc"))))
    by (unfold signals; vm_compute; apply list_elem_of_here).
  split; [exact Hup|].
  exact (status_up_after_all_three_and_once (H := sample_imports)
           (Some "abc") sample_history (SocketMessage 0 msg_user) 0 Hup).
Defined.

(** The three flags are never cleared: after the socket went down, the
    first message on the new socket, whatever its type, brings
    [STATUS_UP]. *)
Example status_up_again_after_reconnect :
  status_calls
    (calls_during (H := sample_imports)
       (sample_history ++
        [ SocketMessage 0 msg_user; SocketClosed 0 1006; Tick 0; SocketOpened 1;
          SocketMessage 1 msg_update ])
       (initial (Some "abc")))
  = [(0, STATUS_UP); (0, STATUS_DOWN); (0, STATUS_UP)].
Proof. reflexivity. Qed.

(** ** Closing *)

(** C4, as stated, fails: on close code 1005 the handler returns right
    after signalling [STATUS_RESET], and the variable [ws] still refers to
    the closed socket. *)
Lemma close_1005_keeps_the_socket_reference :
  ws (state_after (H := sample_imports) [CallConnect 0; SocketOpened 0]
        (initial (Some "abc"))) = Some 0
  ∧ status_calls
      (calls_of_step (H := sample_imports) (SocketClosed 0 1005)
         (state_after (H := sample_imports) [CallConnect 0; SocketOpened 0]
            (initial (Some "abc"))))
    = [(0, STATUS_RESET)]
  ∧ ws (state_after (H := sample_imports)
          [CallConnect 0; SocketOpened 0; SocketClosed 0 1005]
          (initial (Some "abc"))) = Some 0.
Proof. repeat split; reflexivity. Qed.

Lemma ws_is_open_after_close `{Imports} (s : nat) (st : State) :
  ws st = Some s → ws_is_open (with_state_of s CLOSED st) = false.
Proof.
  intros Hws. unfold ws_is_open, with_state_of. cbn. rewrite Hws.
  rewrite list_lookup_alter_eq. now destruct (sockets st !! s).
Qed.

(** C4, amended.  When a socket on which the close handler is installed
    (it is installed when the socket opens) closes, exactly one status is
    signalled: [STATUS_RESET] for close code 1005; otherwise [STATUS_RESET]
    if none of the flags [gotSystem], [gotArticles], [gotUser] is set and
    [STATUS_DOWN] if one is.  For a code other than 1005, [socketUp] is
    reset and [ws] is cleared; for 1005 both are left as they were.  In
    either case, if [ws] referred to this socket or was cleared, it is not
    open afterwards, so the next liveness check constructs a new socket. *)
Theorem close_signals_one_status `{Imports}
    (s : nat) (code : Z) (st : State) (o : WebSocket) (h : Handlers) :
  sockets st !! s = Some o → onclose o = Some h →
  status_calls (calls_of_step (SocketClosed s code) st)
    = [(h, if (code =? 1005)%Z then STATUS_RESET
           else if negb (gotSystem st) && negb (gotArticles st) && negb (gotUser st)
                then STATUS_RESET else STATUS_DOWN)]
  ∧ (code ≠ 1005%Z →
     ws (state_after [SocketClosed s code] st) = None
     ∧ socketUp (state_after [SocketClosed s code] st) = false)
  ∧ (code = 1005%Z →
     ws (state_after [SocketClosed s code] st) = ws st
     ∧ socketUp (state_after [SocketClosed s code] st) = socketUp st)
  ∧ (code ≠ 1005%Z ∨ ws st = Some s →
     ws_is_open (state_after [SocketClosed s code] st) = false
     ∧ ∀ h', opened_urls (checkSocketAlive h' (state_after [SocketClosed s code] st)).1.2
             = [notifier_url (state_after [SocketClosed s code] st)]).
Proof.
  intros Hs Ho. rewrite state_after_single. unfold calls_of_step.
  rewrite !step_SocketClosed_run, Hs. cbn [mbind option_bind]. rewrite Ho.
  rewrite onclose_handler_run.
  assert (Hreopen : ∀ st1, ws_is_open st1 = false → ∀ h',
            opened_urls (checkSocketAlive h' st1).1.2 = [notifier_url st1]).
  { intros st1 Hclosed h'. now rewrite checkSocketAlive_run, Hclosed. }
  destruct (code =? 1005)%Z eqn:Hcode; cbn [fst snd].
  - apply Z.eqb_eq in Hcode. split; [reflexivity|]. split; [intros Hn; contradiction|].
    split; [intros _; split; reflexivity|].
    intros [Hn|Hws]; [contradiction|].
    pose proof (ws_is_open_after_close s st Hws) as Hclosed.
    split; [exact Hclosed|]. apply Hreopen. exact Hclosed.
  - apply Z.eqb_neq in Hcode. split; [reflexivity|]. split; [intros _; split; reflexivity|].
    split; [intros Hn; contradiction|].
    intros _. split; [reflexivity|]. apply Hreopen. reflexivity.
Qed.

Lemma close_signals_one_status_witness :
  sockets (state_after (H := sample_imports)
             (sample_history ++ [SocketMessage 0 msg_user]) (initial (Some "abc"))) !! 0
    = Some (mkWebSocket "ws://localhost:8080/services/updates/summary/?token=abc"
              OPEN (Some 0) (Some 0) (Some 0))
  ∧ status_calls
    (calls_of_step (H := sample_imports) (SocketClosed 0 1006)
       (state_after (H := sample_imports)
          (sample_history ++ [SocketMessage 0 msg_user]) (initial (Some "abc"))))
  = [(0, STATUS_DOWN)].
Proof.
  split; [reflexivity|].
  apply (close_signals_one_status (H := sample_imports) 0 1006
           (state_after (H := sample_imports)
              (sample_history ++ [SocketMessage 0 msg_user]) (initial (Some "abc")))
           (mkWebSocket "ws://localhost:8080/services/updates/summary/?token=abc"
              OPEN (Some 0) (Some 0) (Some 0)) 0);
    reflexivity.
Defined.

(** ** Connecting *)

(** C7.  Whatever event makes the notifier construct a socket, the URL it
    connects to is the [updates/summary] service URL with the stored token
    as the [token] query parameter, the leading [http] of the API URL
    replaced by [ws] (so [http://] becomes [ws://] and [https://] becomes
    [wss://]). *)
Theorem websocket_url_carries_token `{Imports}
    (e : Event) (st : State) (sid : nat) (url tok rest : string) :
  API_URL = "http" +:+ rest → token st = Some tok →
  new_myws sid url ∈ calls_of_step e st →
  url = "ws" +:+ rest +:+ "/services/updates/summary/?token=" +:+ tok.
Proof.
  intros Hapi Htok Hin. apply new_myws_opened in Hin.
  destruct (step_opened_urls e st) as [Hnone|Hone].
  - rewrite Hnone in Hin. inversion Hin.
  - rewrite Hone in Hin. apply list_elem_of_singleton in Hin as ->.
    now apply notifier_url_ws.
Qed.

Lemma websocket_url_carries_token_witness :
  new_myws 0 "ws://localhost:8080/services/updates/summary/?token=abc"
    ∈ calls_of_step (H := sample_imports) (CallConnect 0) (initial (Some "abc"))
  ∧ "ws://localhost:8080/services/updates/summary/?token=abc"
    = "ws" +:+ "://localhost:8080" +:+ "/services/updates/summary/?token=" +:+ "abc".
Proof.
  split; [vm_compute; apply list_elem_of_here|].
  apply (websocket_url_carries_token (H := sample_imports) (CallConnect 0)
           (initial (Some "abc")) 0
           "ws://localhost:8080/services/updates/summary/?token=abc"
           "abc" "://localhost:8080").
  - reflexivity.
  - reflexivity.
  - vm_compute. apply list_elem_of_here.
Defined.

(** Without a socket, [disconnectNotifier] still clears the interval and
    then fails on [ws.close()]. *)
Lemma disconnect_without_socket_throws `{Imports} (st : State) (t : nat) :
  intervalTimer st = Some t → ws st = None →
  ∃ st', disconnectNotifier st = (st', [], Throw TypeError)
       ∧ intervals st' = alter (fun iv => mkInterval (callback iv) (delay iv) false) t
                           (intervals st).
Proof.
  intros Ht Hws. rewrite disconnectNotifier_run, Ht, Hws. eexists. split; reflexivity.
Qed.

Lemma deactivated_interval_is_silent `{Imports} (t : nat) (st : State) :
  active <$> intervals st !! t = Some false → step (Tick t) st = (st, [], Normal tt).
Proof.
  intros Hoff. rewrite step_Tick_run. destruct (intervals st !! t) as [iv|]; [|reflexivity].
  injection Hoff as ->. reflexivity.
Qed.

(** C3.  Call [connectNotifier] in any state and let any events follow,
    none of them a call of [disconnectNotifier].  Then: the call itself ran
    the liveness check (a socket that was absent or not open was replaced
    by a new one at once); the interval it registered, with a delay of
    10000 ms, is still active; whenever that interval fires while the
    socket is absent or not open, a new socket is constructed and becomes
    [ws]; and [disconnectNotifier], called while [intervalTimer] is this
    interval and [ws] refers to a socket, deactivates the interval (it
    never runs the check again) and calls [close] on the socket. *)
Theorem liveness_check_until_disconnect `{Imports}
    (h : Handlers) (st0 : State) (evs : list Event) :
  CallDisconnect ∉ evs →
  (ws_is_open st0 = false →
     calls_of_step (CallConnect h) st0
     = [new_myws (length (sockets st0)) (notifier_url st0)])
  ∧ intervals (state_after (CallConnect h :: evs) st0) !! length (intervals st0)
    = Some (mkInterval h 10000 true)
  ∧ (ws_is_open (state_after (CallConnect h :: evs) st0) = false →
     step (Tick (length (intervals st0))) (state_after (CallConnect h :: evs) st0)
     = (reconnected h (state_after (CallConnect h :: evs) st0),
        [new_myws (length (sockets (state_after (CallConnect h :: evs) st0)))
                  (notifier_url (state_after (CallConnect h :: evs) st0))],
        Normal tt))
  ∧ ((∀ h', CallConnect h' ∉ evs) →
     intervalTimer (state_after (CallConnect h :: evs) st0) = Some (length (intervals st0)))
  ∧ (∀ s, intervalTimer (state_after (CallConnect h :: evs) st0)
            = Some (length (intervals st0)) →
          ws (state_after (CallConnect h :: evs) st0) = Some s →
          ∃ st', step CallDisconnect (state_after (CallConnect h :: evs) st0)
                 = (st', [ws_close s], Normal tt)
               ∧ active <$> intervals st' !! length (intervals st0) = Some false
               ∧ step (Tick (length (intervals st0))) st' = (st', [], Normal tt)).
Proof.
  intros Hno.
  assert (Hstep : intervals (step (CallConnect h) st0).1.1
                  = intervals st0 ++ [mkInterval h 10000 true]
                ∧ intervalTimer (step (CallConnect h) st0).1.1
                  = Some (length (intervals st0))).
  { destruct (step_intervals (CallConnect h) st0 ltac:(discriminate))
      as [(h' & [= <-] & Hi & Ht)|(Hn & _)]; [auto|now destruct (Hn h)]. }
  destruct Hstep as (Hi & Ht).
  assert (Hiv : intervals (state_after (CallConnect h :: evs) st0) !! length (intervals st0)
                = Some (mkInterval h 10000 true)).
  { rewrite state_after_cons. apply interval_kept; [exact Hno|].
    rewrite Hi. apply list_lookup_middle. reflexivity. }
  split; [|split; [exact Hiv|split; [|split]]].
  - intros Hclosed. unfold calls_of_step. cbn [step].
    now rewrite connectNotifier_run, checkSocketAlive_run, Hclosed.
  - intros Hclosed. rewrite step_Tick_run, Hiv. cbn [active callback].
    now rewrite checkSocketAlive_run, Hclosed.
  - intros Hnc. rewrite state_after_cons, intervalTimer_kept; auto.
  - intros s Htimer Hws. cbn [step]. rewrite disconnectNotifier_run, Htimer, Hws.
    eexists. split; [reflexivity|].
    assert (Hoff : ∀ socks st1,
              intervals st1 = alter (fun iv => mkInterval (callback iv) (delay iv) false)
                                (length (intervals st0))
                                (intervals (state_after (CallConnect h :: evs) st0)) →
              active <$> intervals (set_sockets socks st1) !! length (intervals st0)
              = Some false).
    { intros socks st1 Hst1.
      change (intervals (set_sockets socks st1)) with (intervals st1).
      now rewrite Hst1, list_lookup_alter_eq, Hiv. }
    split; [apply Hoff; reflexivity|].
    apply deactivated_interval_is_silent. apply Hoff. reflexivity.
Qed.

Lemma liveness_check_until_disconnect_witness :
  (CallDisconnect ∉ [SocketOpened 0; SocketClosed 0 1006])
  ∧ intervals
    (state_after (H := sample_imports)
       [CallConnect 0; SocketOpened 0; SocketClosed 0 1006] (initial (Some "abc")))
    !! length (intervals (initial (Some "abc")))
  = Some (mkInterval 0 10000 true).
Proof.
  assert (Hno : CallDisconnect ∉ [SocketOpened 0; SocketClosed 0 1006]).
  { rewrite !elem_of_cons, elem_of_nil. intros [Hin|[Hin|[]]]; discriminate Hin. }
  split; [exact Hno|].
  apply (liveness_check_until_disconnect (H := sample_imports) 0
           (initial (Some "abc")) [SocketOpened 0; SocketClosed 0 1006] Hno).
Defined.

(* ===================================================================== *)
(** * Further properties *)
(* ===================================================================== *)

(** ** Mapping a constructor over the elements of an array *)

Lemma mapM_length {A B} (f : A -> completion B) (l : list A) (l' : list B) :
  mapM f l = Normal l' → length l' = length l.
Proof.
  revert l'. induction l as [|x l IH]; intros l'; cbn.
  - intros [= <-]. reflexivity.
  - destruct (f x) as [y|e]; [|discriminate].
    destruct (mapM f l) as [ys|e]; [|discriminate].
    intros [= <-]. cbn. f_equal. now apply IH.
Qed.

Lemma mapM_Forall {A B} (f : A -> completion B) (P : B -> Prop) (l : list A) (l' : list B) :
  (∀ x y, f x = Normal y → P y) → mapM f l = Normal l' → Forall P l'.
Proof.
  intros Hf. revert l'. induction l as [|x l IH]; intros l'; cbn.
  - intros [= <-]. constructor.
  - destruct (f x) as [y|e] eqn:Hx; [|discriminate].
    destruct (mapM f l) as [ys|e]; [|discriminate].
    intros [= <-]. constructor; [now apply (Hf x)|now apply IH].
Qed.


(** ** The article model, for any argument *)

Lemma ArticleModel_cases (v : any) :
  match v with
  | Undefined | Null => ArticleModel v = Throw TypeError
  | Obj m =>
      match m !! "url" with
      | Some (Str s) =>
          ArticleModel v
          = Normal (if unsafe_url s then Obj (<["url" := Null]> m) else v)
      | Some x =>
          if truthy x then ArticleModel v = Throw TypeError
          else ArticleModel v = Normal v
      | None => ArticleModel v = Normal v
      end
  | _ => ArticleModel v = Normal v
  end.
Proof.
  destruct v as [| |b|q|s|l|m|n]; try reflexivity.
  unfold ArticleModel. cbn. destruct (m !! "url") as [x|]; [|reflexivity].
  destruct x as [| |b|q|s|l|m'|n]; cbn; try reflexivity.
  - destruct b; reflexivity.
  - destruct (Qeq_bool q 0); reflexivity.
  - unfold unsafe_url. destruct (String.eqb s ""); cbn; [reflexivity|].
    destruct (String.prefix "http://" s); cbn; [reflexivity|].
    destruct (String.prefix "https://" s); reflexivity.
Qed.

Lemma unsafe_url_false (s : string) :
  unsafe_url s = false →
  s = "" ∨ starts_with "http://" s ∨ starts_with "https://" s.
Proof.
  unfold unsafe_url. destruct (String.eqb s "") eqn:He; cbn.
  - intros _. left. now apply String.eqb_eq.
  - destruct (String.prefix "http://" s) eqn:H1; cbn.
    + intros _. right. left. now apply prefix_starts_with.
    + destruct (String.prefix "https://" s) eqn:H2; cbn; [|discriminate].
      intros _. right. right. now apply prefix_starts_with.
Qed.

(** The [url] string of a returned article is not one that
    [ArticleModel] replaces. *)
Lemma ArticleModel_result_not_unsafe (v a : any) (u : string) :
  ArticleModel v = Normal a → get a "url" = Normal (Str u) → unsafe_url u = false.
Proof.
  intros Hrun Hu. pose proof (ArticleModel_cases v) as Hc.
  destruct v as [| |b|q|s|l|m|n]; rewrite Hrun in Hc;
    try discriminate Hc;
    try (injection Hc as ->; cbn in Hu; discriminate Hu).
  destruct (m !! "url") as [x|] eqn:Hx.
  - destruct x as [| |b|q|s|l|m'|n];
      try (cbn in Hc; injection Hc as ->; cbn in Hu; rewrite Hx in Hu; discriminate Hu).
    + destruct b; cbn in Hc; [discriminate Hc|].
      injection Hc as ->. cbn in Hu. rewrite Hx in Hu. discriminate Hu.
    + destruct (truthy (Num q)); [discriminate Hc|].
      injection Hc as ->. cbn in Hu. rewrite Hx in Hu. discriminate Hu.
    + injection Hc as ->. destruct (unsafe_url s) eqn:Hs.
      * cbn in Hu. rewrite lookup_insert_eq in Hu. discriminate Hu.
      * cbn in Hu. rewrite Hx in Hu. now injection Hu as <-.
    + cbn in Hc. discriminate Hc.
    + cbn in Hc. discriminate Hc.
    + cbn in Hc. discriminate Hc.
  - injection Hc as ->. cbn in Hu. rewrite Hx in Hu. discriminate Hu.
Qed.

Lemma mapM_ArticleModel_safe (l l' : list any) :
  mapM ArticleModel l = Normal l' → Forall safe_url l'.
Proof.
  apply mapM_Forall. intros x y Hxy u Hu.
  apply unsafe_url_false. exact (ArticleModel_result_not_unsafe x y u Hxy Hu).
Qed.

(** X1.  Whatever the argument, an article that [ArticleModel] returns
    never carries a [url] string other than an empty one or one that
    starts with [http://] or [https://]. *)
Theorem ArticleModel_returns_safe_url (v a : any) :
  ArticleModel v = Normal a → safe_url a.
Proof.
  intros Hrun u Hu. apply unsafe_url_false.
  eapply ArticleModel_result_not_unsafe; eassumption.
Qed.

Lemma ArticleModel_returns_safe_url_witness :
  ArticleModel (Obj sample_article)
    = Normal (Obj (<["url" := Null]> sample_article))
  ∧ safe_url (Obj (<["url" := Null]> sample_article)).
Proof.
  assert (Hrun : ArticleModel (Obj sample_article)
                 = Normal (Obj (<["url" := Null]> sample_article))) by reflexivity.
  split; [exact Hrun|].
  exact (ArticleModel_returns_safe_url _ _ Hrun).
Defined.

(** X2.  Sanitizing twice is sanitizing once: [ArticleModel] returns what
    it returned, unchanged, when applied to its own result. *)
Theorem ArticleModel_idempotent (v a : any) :
  ArticleModel v = Normal a → ArticleModel a = Normal a.
Proof.
  intros Hrun. pose proof (ArticleModel_cases v) as Hc.
  destruct v as [| |b|q|s|l|m|n]; rewrite Hrun in Hc;
    try discriminate Hc; try (injection Hc as ->; exact Hrun).
  destruct (m !! "url") as [x|] eqn:Hx.
  - destruct x as [| |b|q|s|l|m'|n]; cbn in Hc;
      try discriminate Hc; try (injection Hc as ->; exact Hrun).
    + destruct b; [discriminate Hc|]. injection Hc as ->. exact Hrun.
    + destruct (negb (Qeq_bool q 0)); [discriminate Hc|]. injection Hc as ->. exact Hrun.
    + injection Hc as ->. destruct (unsafe_url s); [|exact Hrun].
      pose proof (ArticleModel_cases (Obj (<["url" := Null]> m))) as Hn.
      cbn in Hn. rewrite lookup_insert_eq in Hn. exact Hn.
  - injection Hc as ->. exact Hrun.
Qed.

Lemma ArticleModel_idempotent_witness :
  ArticleModel (Obj sample_article)
    = Normal (Obj (<["url" := Null]> sample_article))
  ∧ ArticleModel (Obj (<["url" := Null]> sample_article))
    = Normal (Obj (<["url" := Null]> sample_article)).
Proof.
  assert (Hrun : ArticleModel (Obj sample_article)
                 = Normal (Obj (<["url" := Null]> sample_article))) by reflexivity.
  split; [exact Hrun|].
  exact (ArticleModel_idempotent _ _ Hrun).
Defined.

(** X3.  [ArticleModel] fails exactly when it is given [undefined] or
    [null] (the parameter is optional), or an object whose [url] is truthy
    and not a string; the failure is always a [TypeError]. *)
Theorem ArticleModel_throws_iff (v : any) :
  (∀ e, ArticleModel v = Throw e → e = TypeError)
  ∧ (ArticleModel v = Throw TypeError ↔
     v = Undefined ∨ v = Null
     ∨ ∃ x, get v "url" = Normal x ∧ truthy x = true ∧ ∀ s, x ≠ Str s).
Proof.
  pose proof (ArticleModel_cases v) as Hc.
  assert (Hprim : ∀ w, get w "url" = Normal (inherited "url") →
            ¬ ∃ x, get w "url" = Normal x ∧ truthy x = true ∧ ∀ s, x ≠ Str s).
  { intros w Hw (x & Hx & Ht & _). rewrite Hw in Hx. injection Hx as <-.
    discriminate Ht. }
  destruct v as [| |b|q|s|l|m|n];
    try (rewrite Hc; split; [congruence|]; split; [auto|reflexivity]);
    try (rewrite Hc; split; [discriminate|]; split; [discriminate|];
         intros [Hv|[Hv|Hv]]; [discriminate Hv|discriminate Hv|];
         exfalso; revert Hv; now apply Hprim).
  destruct (m !! "url") as [x|] eqn:Hx.
  - assert (Hget : get (Obj m) "url" = Normal x) by (cbn; now rewrite Hx).
    destruct x as [| |b|q|s|l|m'|n]; cbn in Hc;
      try (rewrite Hc; split; [discriminate|]; split; [discriminate|];
           intros [Hv|[Hv|(y & Hy & Ht & Hs)]];
           [discriminate Hv|discriminate Hv|];
           rewrite Hget in Hy; injection Hy as <-;
           first [discriminate Ht | now destruct (Hs s)]);
      try (rewrite Hc; split; [congruence|]; split; [|reflexivity];
           intros _; right; right; eexists; split; [exact Hget|];
           split; [reflexivity|discriminate]).
    + destruct b; rewrite Hc.
      * split; [congruence|]. split; [|reflexivity].
        intros _. right. right. eexists. split; [exact Hget|]. split; [reflexivity|discriminate].
      * split; [discriminate|]. split; [discriminate|].
        intros [Hv|[Hv|(y & Hy & Ht & _)]]; [discriminate Hv|discriminate Hv|].
        rewrite Hget in Hy. injection Hy as <-. discriminate Ht.
    + destruct (negb (Qeq_bool q 0)) eqn:Hq; rewrite Hc.
      * split; [congruence|]. split; [|reflexivity].
        intros _. right. right. eexists. split; [exact Hget|]. split; [exact Hq|discriminate].
      * split; [discriminate|]. split; [discriminate|].
        intros [Hv|[Hv|(y & Hy & Ht & _)]]; [discriminate Hv|discriminate Hv|].
        rewrite Hget in Hy. injection Hy as <-. cbn in Ht. congruence.
  - assert (Hget : get (Obj m) "url" = Normal (inherited "url")) by (cbn; now rewrite Hx).
    rewrite Hc. split; [discriminate|]. split; [discriminate|].
    intros [Hv|[Hv|Hv]]; [discriminate Hv|discriminate Hv|].
    exfalso. revert Hv. now apply Hprim.
Qed.

(** ** Requests of the data service *)






(** X6.  [validateModelName] lets a name through exactly when it is one of
    the nine model names or a member of [Object.prototype]; every other
    name is refused with an [Error]. *)
Theorem validateModelName_accepts_iff (name : string) :
  (validateModelName name = Normal tt ↔
   name ∈ valid_model_names ∨ name ∈ Object_prototype)
  ∧ (validateModelName name ≠ Normal tt →
     ∃ message, validateModelName name = Throw (Error message)).
Proof.
  destruct (decide (name ∈ valid_model_names)) as [Hv|Hv].
  { rewrite (validateModelName_valid _ Hv). split; [|congruence]. split; auto. }
  destruct (decide (name ∈ Object_prototype)) as [Hp|Hp].
  { rewrite (validateModelName_inherited _ Hv Hp). split; [|congruence]. split; auto. }
  destruct (validateModelName_refuses _ Hv Hp) as [message Hm]. rewrite Hm.
  split; [|eauto]. split; [discriminate|]. intros [?|?]; contradiction.
Qed.

(** X7.  The [id] of a model never travels among its attributes:
    [createModel] and [updateModel] (without [onlyAttributes]) send the
    model with its [id] removed and every other attribute as given;
    [updateModel] puts the id of its argument beside the attributes. *)
Theorem model_id_is_not_an_attribute `{Imports}
    (type id : string) (model : gmap string any) :
  validateModelName type = Normal tt →
  ∃ attributes,
    attributes !! "id" = None
    ∧ (∀ k, k ≠ "id" → attributes !! k = model !! k)
    ∧ requests (createModel type model)
      = [mkRequest POST (API_URL +:+ "/rest/" +:+ type)
           (Some (Obj {[ "data" :=
              Obj {[ "attributes" := Obj attributes; "type" := Str type ]} ]}))]
    ∧ requests (updateModel type id model None)
      = [mkRequest PATCH (API_URL +:+ "/rest/" +:+ type +:+ "/" +:+ id)
           (Some (Obj {[ "data" :=
              Obj {[ "attributes" := Obj attributes; "type" := Str type;
                     "id" := Str id ]} ]}))].
Proof.
  intros Hok. exists (without_id model). unfold without_id.
  split; [apply lookup_delete_eq|].
  split; [intros k Hk; apply lookup_delete_ne; congruence|].
  unfold createModel, updateModel.
  rewrite Hok, (listURL_after_validation _ Hok), (modelURL_after_validation _ _ Hok),
    !await_lift_Normal, !requests_single.
  split; reflexivity.
Qed.

Lemma model_id_is_not_an_attribute_witness :
  validateModelName "tags" = Normal tt
  ∧ requests (createModel (H := sample_imports) "tags"
                {[ "id" := Str "3"; "label" := Str "Spam" ]})
    = [mkRequest POST "http://localhost:8080/rest/tags"
         (Some (Obj {[ "data" :=
            Obj {[ "attributes" := Obj (delete "id" {[ "id" := Str "3"; "label" := Str "Spam" ]});
                   "type" := Str "tags" ]} ]}))].
Proof.
  split; [reflexivity|].
  destruct (model_id_is_not_an_attribute (H := sample_imports) "tags" "3"
              {[ "id" := Str "3"; "label" := Str "Spam" ]} eq_refl)
    as (attributes & Hid & Hother & Hcreate & _).
  rewrite Hcreate.
  replace attributes with (delete "id" ({[ "id" := Str "3"; "label" := Str "Spam" ]}
                                        : gmap string any)); [reflexivity|].
  apply map_eq. intros k. destruct (decide (k = "id")) as [->|Hk].
  - now rewrite lookup_delete_eq, Hid.
  - rewrite lookup_delete_ne by congruence. symmetry. now apply Hother.
Defined.




(** ** serializeParams *)

Section QueryFacts.
Context `{Query.Runtime}.

Lemma join_strings (separator : string) (l : list string) :
  Query.join separator (Str <$> l) = String.concat separator l.
Proof.
  induction l as [|x l IH]; [reflexivity|].
  destruct l as [|y l]; [reflexivity|].
  cbn [fmap list_fmap Query.join String.concat] in *. now rewrite IH.
Qed.

Lemma call_join_cases (v : any) (separator : string) :
  Query.call_join v separator
  = if is_array v
    then Normal (match v with Arr l => Query.join separator l | _ => "" end)
    else Throw TypeError.
Proof. destruct v; reflexivity. Qed.

(** [prepareParams], with the three reads made explicit. *)
Lemma prepareParams_run (o : gmap string any) :
  Query.prepareParams o =
    let sort := own o "sort" in
    let filters := own o "filters" in
    let include := own o "include" in
    let p1 := if truthy sort
              then match sort with
                   | Arr l => Normal (<["sort" := Str (Query.join "," l)]> o)
                   | _ => Throw TypeError
                   end
              else Normal o in
    match p1 with
    | Throw e => Throw e
    | Normal p1 =>
        let p3 := if truthy filters then <["filter" := filters]> (delete "filters" p1)
                  else delete "filters" p1 in
        if truthy include
        then match include with
             | Arr l => Normal (<["include" := Str (Query.join "," l)]> p3)
             | _ => Throw TypeError
             end
        else Normal p3
    end.
Proof.
  unfold Query.prepareParams, own. cbn [get].
  assert (Hs : inherited "sort" = Undefined) by reflexivity.
  assert (Hf : inherited "filters" = Undefined) by reflexivity.
  assert (Hi : inherited "include" = Undefined) by reflexivity.
  destruct (o !! "sort") as [s|] eqn:Es; cbn [bind];
    [|rewrite Hs; cbn [truthy bind]].
  - destruct (truthy s) eqn:Ts.
    + destruct s; cbn [Query.call_join bind]; try reflexivity.
      destruct (o !! "filters") as [f|] eqn:Ef; cbn [bind]; [|rewrite Hf; cbn [truthy]].
      * destruct (o !! "include") as [i|] eqn:Ei; cbn [bind];
          [|rewrite Hi; cbn [truthy]; reflexivity].
        destruct (truthy i) eqn:Ti; [|reflexivity].
        destruct (truthy f); cbn [get];
          rewrite ?lookup_insert_ne, ?lookup_delete_ne, ?lookup_insert_ne, Ei by discriminate;
          cbn [bind]; destruct i; reflexivity.
      * destruct (o !! "include") as [i|] eqn:Ei; cbn [bind];
          [|rewrite Hi; cbn [truthy]; reflexivity].
        destruct (truthy i) eqn:Ti; [|reflexivity].
        cbn [get]. rewrite lookup_delete_ne, lookup_insert_ne, Ei by discriminate.
        cbn [bind]; destruct i; reflexivity.
    + cbn [bind].
      destruct (o !! "filters") as [f|] eqn:Ef; cbn [bind]; [|rewrite Hf; cbn [truthy]].
      * destruct (o !! "include") as [i|] eqn:Ei; cbn [bind];
          [|rewrite Hi; cbn [truthy]; reflexivity].
        destruct (truthy i) eqn:Ti; [|reflexivity].
        destruct (truthy f); cbn [get];
          rewrite ?lookup_insert_ne, ?lookup_delete_ne, Ei by discriminate;
          cbn [bind]; destruct i; reflexivity.
      * destruct (o !! "include") as [i|] eqn:Ei; cbn [bind];
          [|rewrite Hi; cbn [truthy]; reflexivity].
        destruct (truthy i) eqn:Ti; [|reflexivity].
        cbn [get]. rewrite lookup_delete_ne, Ei by discriminate.
        cbn [bind]; destruct i; reflexivity.
  - destruct (o !! "filters") as [f|] eqn:Ef; cbn [bind]; [|rewrite Hf; cbn [truthy]].
    * destruct (o !! "include") as [i|] eqn:Ei; cbn [bind];
        [|rewrite Hi; cbn [truthy]; reflexivity].
      destruct (truthy i) eqn:Ti; [|reflexivity].
      destruct (truthy f); cbn [get];
        rewrite ?lookup_insert_ne, ?lookup_delete_ne, Ei by discriminate;
        cbn [bind]; destruct i; reflexivity.
    * destruct (o !! "include") as [i|] eqn:Ei; cbn [bind];
        [|rewrite Hi; cbn [truthy]; reflexivity].
      destruct (truthy i) eqn:Ti; [|reflexivity].
      cbn [get]. rewrite lookup_delete_ne, Ei by discriminate.
      cbn [bind]; destruct i; reflexivity.
Qed.

Ltac prepared_cases o Hrun :=
  rewrite prepareParams_run in Hrun; cbv zeta in Hrun;
  destruct (truthy (own o "sort")) eqn:Tsort;
  [destruct (own o "sort") eqn:Esort; try discriminate Hrun|];
  (destruct (truthy (own o "filters")) eqn:Tfilters;
   (destruct (truthy (own o "include")) eqn:Tinclude;
    [destruct (own o "include") eqn:Einclude; try discriminate Hrun|]));
  injection Hrun as <-.

(** X8.  The object that [serializeParams] hands to [qs.stringify] never
    has a [filters] member: truthy filters travel as [filter]; otherwise
    [filter] is whatever the caller put there.  Every member other than
    [sort], [filters], [filter] and [include] is passed on as given. *)
Theorem prepareParams_renames_filters (o p : gmap string any) :
  Query.prepareParams o = Normal p →
  p !! "filters" = None
  ∧ (truthy (own o "filters") = true → p !! "filter" = Some (own o "filters"))
  ∧ (truthy (own o "filters") = false → p !! "filter" = o !! "filter")
  ∧ (∀ k, k ∉ ["sort"; "filters"; "filter"; "include"] → p !! k = o !! k).
Proof.
  intros Hrun.
  assert (Hkeys : ∀ k, k ∉ ["sort"; "filters"; "filter"; "include"] →
            k ≠ "sort" ∧ k ≠ "filters" ∧ k ≠ "filter" ∧ k ≠ "include").
  { intros k Hk. rewrite !elem_of_cons, elem_of_nil in Hk. intuition congruence. }
  prepared_cases o Hrun;
    (split; [now simplify_map_eq|]);
    (split; [intros Ht; try discriminate Ht; now simplify_map_eq|]);
    (split; [intros Ht; try discriminate Ht; now simplify_map_eq|]);
    intros k Hk; destruct (Hkeys k Hk) as (? & ? & ? & ?); now simplify_map_eq.
Qed.

(** X9.  A [sort] or [include] that is an array of strings reaches
    [qs.stringify] as one string, the elements separated by commas (the
    empty array as the empty string); a falsy [sort] or [include] is left
    as it is. *)
Theorem prepareParams_joins_lists (o p : gmap string any) :
  Query.prepareParams o = Normal p →
  (∀ l, o !! "sort" = Some (Arr (Str <$> l)) →
        p !! "sort" = Some (Str (String.concat "," l)))
  ∧ (∀ l, o !! "include" = Some (Arr (Str <$> l)) →
          p !! "include" = Some (Str (String.concat "," l)))
  ∧ (truthy (own o "sort") = false → p !! "sort" = o !! "sort")
  ∧ (truthy (own o "include") = false → p !! "include" = o !! "include").
Proof.
  intros Hrun.
  assert (Hown : ∀ k l, o !! k = Some (Arr (Str <$> l)) → own o k = Arr (Str <$> l)).
  { intros k l Hk. unfold own. now rewrite Hk. }
  prepared_cases o Hrun;
    (split; [intros strs Hl; apply Hown in Hl; rewrite Hl in *;
             try discriminate; try (injection Esort as ->);
             rewrite <- ?join_strings; now simplify_map_eq|]);
    (split; [intros strs Hl; apply Hown in Hl; rewrite Hl in *;
             try discriminate; try (injection Einclude as ->);
             rewrite <- ?join_strings; now simplify_map_eq|]);
    (split; [intros Ht; try discriminate Ht; now simplify_map_eq|]);
    intros Ht; try discriminate Ht; now simplify_map_eq.
Qed.

Lemma prepareParams_outcome (o : gmap string any) :
  match Query.prepareParams o with
  | Throw e =>
      e = TypeError
      ∧ truthy (own o "sort") && negb (is_array (own o "sort"))
        || truthy (own o "include") && negb (is_array (own o "include")) = true
  | Normal _ =>
      truthy (own o "sort") && negb (is_array (own o "sort"))
      || truthy (own o "include") && negb (is_array (own o "include")) = false
  end.
Proof.
  rewrite prepareParams_run. cbv zeta.
  generalize (own o "sort") (own o "filters") (own o "include"). intros s f i.
  destruct (truthy s) eqn:Ts; destruct s; try discriminate Ts;
    cbn [is_array negb andb orb]; auto;
    destruct (truthy i) eqn:Ti; destruct i; try discriminate Ti;
    cbn [is_array negb andb orb]; auto.
Qed.

(** X10.  [serializeParams] fails exactly when [sort], or else [include],
    is truthy and not an array (a string, say): [join] is then not a
    function.  The failure is a [TypeError]; without params the result is
    the empty string. *)
Theorem serializeParams_throws_iff (o : gmap string any) :
  Query.serializeParams None = Normal ""
  ∧ (∀ e, Query.serializeParams (Some o) = Throw e → e = TypeError)
  ∧ (Query.serializeParams (Some o) = Throw TypeError ↔
     truthy (own o "sort") && negb (is_array (own o "sort"))
     || truthy (own o "include") && negb (is_array (own o "include")) = true).
Proof.
  split; [reflexivity|]. unfold Query.serializeParams.
  pose proof (prepareParams_outcome o) as Hout.
  destruct (Query.prepareParams o) as [p|e]; cbn [bind].
  - rewrite Hout. split; [discriminate|]. split; discriminate.
  - destruct Hout as [-> Hcond]. split; [congruence|]. split; auto.
Qed.

End QueryFacts.

Lemma prepareParams_renames_filters_witness :
  Query.prepareParams (H := sample_runtime) sample_params
    = Normal {[ "sort" := Str "-score,id";
                "filter" := Obj {[ "isAccepted" := Bool true ]};
                "include" := Str "article";
                "page" := Num 2 ]}
  ∧ ({[ "sort" := Str "-score,id";
        "filter" := Obj {[ "isAccepted" := Bool true ]};
        "include" := Str "article";
        "page" := Num 2 ]} : gmap string any) !! "filters" = None.
Proof.
  assert (Hrun : Query.prepareParams (H := sample_runtime) sample_params
            = Normal {[ "sort" := Str "-score,id";
                        "filter" := Obj {[ "isAccepted" := Bool true ]};
                        "include" := Str "article";
                        "page" := Num 2 ]}) by (vm_compute; reflexivity).
  split; [exact Hrun|].
  exact (proj1 (prepareParams_renames_filters (H := sample_runtime) _ _ Hrun)).
Defined.

Lemma prepareParams_joins_lists_witness :
  sample_params !! "sort" = Some (Arr (Str <$> ["-score"; "id"]))
  ∧ ({[ "sort" := Str "-score,id";
        "filter" := Obj {[ "isAccepted" := Bool true ]};
        "include" := Str "article";
        "page" := Num 2 ]} : gmap string any) !! "sort"
    = Some (Str (String.concat "," ["-score"; "id"])).
Proof.
  assert (Hrun : Query.prepareParams (H := sample_runtime) sample_params
            = Normal {[ "sort" := Str "-score,id";
                        "filter" := Obj {[ "isAccepted" := Bool true ]};
                        "include" := Str "article";
                        "page" := Num 2 ]}) by (vm_compute; reflexivity).
  assert (Hsort : sample_params !! "sort" = Some (Arr (Str <$> ["-score"; "id"])))
    by reflexivity.
  split; [exact Hsort|].
  exact (proj1 (prepareParams_joins_lists (H := sample_runtime) _ _ Hrun) _ Hsort).
Defined.

(** ** Sockets and handlers of the notifier *)

Lemma lookup_alter_Some {A} (f : A -> A) (i j : nat) (l : list A) (y : A) :
  alter f i l !! j = Some y →
  ∃ x, l !! j = Some x ∧ (y = x ∨ (i = j ∧ y = f x)).
Proof.
  destruct (decide (i = j)) as [->|Hne].
  - rewrite list_lookup_alter_eq. destruct (l !! j) as [x|]; [|discriminate].
    intros [= <-]. eauto.
  - rewrite list_lookup_alter_ne by exact Hne. eauto.
Qed.

Lemma lookup_snoc_cases {A} (l : list A) (x y : A) (j : nat) :
  (l ++ [x]) !! j = Some y → l !! j = Some y ∨ (j = length l ∧ y = x).
Proof.
  intros Hj. apply lookup_snoc_Some in Hj as [[_ Hj]|[-> ->]]; auto.
Qed.

Section NotifierSockets.
Context `{Imports}.

(** What one event does to the sockets: a socket that is there afterwards
    was there before, with the same open and message handlers, and with
    the same close handler unless the event is a socket opening and the
    socket is the one [ws] refers to; or it is the socket that a liveness
    check has just constructed, connecting, with open and message handlers
    and no close handler. *)
Lemma step_socket_lookup (e : Event) (st : State) (s' : nat) (o' : WebSocket) :
  sockets (step e st).1.1 !! s' = Some o' →
  (∃ o, sockets st !! s' = Some o
        ∧ onopen o' = onopen o ∧ onmessage o' = onmessage o
        ∧ (onclose o' = onclose o
           ∨ ∃ s h, e = SocketOpened s ∧ ws st = Some s' ∧ onclose o' = Some h))
  ∨ (s' = length (sockets st)
     ∧ ∃ h, o' = mkWebSocket (notifier_url st) CONNECTING (Some h) (Some h) None
            ∧ ws_is_open st = false
            ∧ (e = CallConnect h ∨ ∃ t, e = Tick t)).
Proof.
  assert (Hsame : ∀ o, sockets st !! s' = Some o →
            ∃ o0, sockets st !! s' = Some o0
                  ∧ onopen o = onopen o0 ∧ onmessage o = onmessage o0
                  ∧ (onclose o = onclose o0
                     ∨ ∃ s h, e = SocketOpened s ∧ ws st = Some s' ∧ onclose o = Some h))
    by (intros o Ho; exists o; auto).
  assert (Halive : ∀ h, (e = CallConnect h ∨ ∃ t, e = Tick t) →
            sockets (checkSocketAlive h st).1.1 !! s' = Some o' →
            (∃ o, sockets st !! s' = Some o
                  ∧ onopen o' = onopen o ∧ onmessage o' = onmessage o
                  ∧ (onclose o' = onclose o
                     ∨ ∃ s h0, e = SocketOpened s ∧ ws st = Some s' ∧ onclose o' = Some h0))
            ∨ (s' = length (sockets st)
               ∧ ∃ h0, o' = mkWebSocket (notifier_url st) CONNECTING (Some h0) (Some h0) None
                       ∧ ws_is_open st = false
                       ∧ (e = CallConnect h0 ∨ ∃ t, e = Tick t))).
  { intros h He. rewrite checkSocketAlive_run.
    destruct (ws_is_open st) eqn:Hopen; cbn [fst snd].
    - intros Ho. left. now apply Hsame.
    - unfold reconnected. cbn [sockets set_sockets]. intros Ho.
      apply lookup_snoc_cases in Ho as [Ho|[-> ->]].
      + left. now apply Hsame.
      + right. split; [reflexivity|]. exists h. destruct He as [->|He]; eauto. }
  destruct e as [h| |t|s|s data|s code|tok].
  - cbn [step]. rewrite connectNotifier_run.
    destruct (checkSocketAlive h st) as [[st1 c1] r1] eqn:Hrun. cbn [fst snd].
    cbn [sockets set_intervalTimer set_intervals]. intros Ho.
    apply (Halive h); [now left|]. now rewrite Hrun.
  - cbn [step]. rewrite disconnectNotifier_run. cbv zeta.
    destruct (ws st) as [cur|]; cbn [fst snd];
      destruct (intervalTimer st); cbn [sockets set_sockets set_intervals];
      intros Ho; try (left; now apply Hsame);
      apply lookup_alter_Some in Ho as (o & Ho & [->|[_ ->]]);
      left; exists o; (split; [exact Ho|]);
      destruct (readyState o); auto.
  - rewrite step_Tick_run. destruct (intervals st !! t) as [iv|]; cbn [fst snd].
    + destruct (active iv); cbn [fst snd].
      * apply Halive. right. eauto.
      * intros Ho. left. now apply Hsame.
    + intros Ho. left. now apply Hsame.
  - rewrite step_SocketOpened_run.
    destruct (sockets st !! s ≫= onopen) as [h|]; cbn [fst snd].
    + rewrite onopen_handler_run. cbn [ws with_state_of set_sockets].
      destruct (ws st) as [cur|] eqn:Hws; cbn [fst snd sockets set_sockets with_state_of];
        intros Ho.
      * apply lookup_alter_Some in Ho as (o1 & Ho1 & Hcase).
        apply lookup_alter_Some in Ho1 as (o & Ho & Hcase1).
        left. exists o. split; [exact Ho|].
        destruct Hcase as [->|[-> ->]]; destruct Hcase1 as [->|[_ ->]]; cbn; eauto 10.
      * apply lookup_alter_Some in Ho as (o & Ho & [->|[_ ->]]);
          left; exists o; auto.
    + unfold with_state_of. cbn [sockets set_sockets]. intros Ho.
      apply lookup_alter_Some in Ho as (o & Ho & [->|[_ ->]]);
        left; exists o; auto.
  - pose proof (message_step_cases s data st) as Hc.
    destruct (step (SocketMessage s data) st) as [[st' calls] r]. cbn [fst snd].
    destruct Hc as [[-> _]|(h & body & st1 & c1 & _ & Hd & _ & Hcase)].
    { intros Ho. left. now apply Hsame. }
    apply dispatched_frame in Hd. destruct Hd as (_ & _ & Hsock & _).
    destruct Hcase as [(_ & -> & _)|(_ & -> & _)]; cbn [sockets set_socketUp];
      rewrite Hsock; intros Ho; left; now apply Hsame.
  - rewrite step_SocketClosed_run.
    destruct (sockets st !! s ≫= onclose) as [h|]; cbn [fst snd].
    + rewrite onclose_handler_run.
      destruct (code =? 1005)%Z; cbn [fst snd sockets set_ws set_socketUp];
        unfold with_state_of; cbn [sockets set_sockets]; intros Ho;
        apply lookup_alter_Some in Ho as (o & Ho & [->|[_ ->]]);
        left; exists o; auto.
    + unfold with_state_of. cbn [sockets set_sockets]. intros Ho.
      apply lookup_alter_Some in Ho as (o & Ho & [->|[_ ->]]);
        left; exists o; auto.
  - cbn. intros Ho. left. now apply Hsame.
Qed.

(** Where a call made during one event comes from. *)
Lemma step_call_origin (e : Event) (st : State) (c : Call) :
  c ∈ calls_of_step e st →
  (∃ url, c = new_myws (length (sockets st)) url
          ∧ ((∃ h, e = CallConnect h) ∨ ∃ t, e = Tick t))
  ∨ (∃ s, c = ws_close s ∧ e = CallDisconnect ∧ ws st = Some s)
  ∨ (∃ text args, c = console_log text args)
  ∨ (∃ h status, c = websocketStateHandler h status)
  ∨ (∃ s data h body st1,
        e = SocketMessage s data ∧ JSON_parse data = Normal body
        ∧ dispatched h body st st1 [c]).
Proof.
  unfold calls_of_step. destruct e as [h| |t|s|s data|s code|tok].
  - cbn [step]. rewrite connectNotifier_run, checkSocketAlive_run.
    destruct (ws_is_open st); cbn [fst snd]; intros Hin.
    + inversion Hin.
    + apply list_elem_of_singleton in Hin as ->. left. eauto 10.
  - cbn [step]. rewrite disconnectNotifier_run. cbv zeta.
    destruct (ws st) as [cur|]; cbn [fst snd]; intros Hin.
    + apply list_elem_of_singleton in Hin as ->. right. left. eauto.
    + inversion Hin.
  - rewrite step_Tick_run. destruct (intervals st !! t) as [iv|]; cbn [fst snd].
    + destruct (active iv); cbn [fst snd].
      * rewrite checkSocketAlive_run. destruct (ws_is_open st); cbn [fst snd]; intros Hin.
        -- inversion Hin.
        -- apply list_elem_of_singleton in Hin as ->. left. eauto 10.
      * intros Hin. inversion Hin.
    + intros Hin. inversion Hin.
  - rewrite step_SocketOpened_run.
    destruct (sockets st !! s ≫= onopen) as [h|]; cbn [fst snd].
    + rewrite onopen_handler_run. cbn [ws with_state_of set_sockets].
      destruct (ws st); cbn [fst snd]; intros Hin;
        apply list_elem_of_singleton in Hin as ->; right; right; left; eauto.
    + intros Hin. inversion Hin.
  - pose proof (message_step_cases s data st) as Hc.
    destruct (step (SocketMessage s data) st) as [[st' calls] r]. cbn [fst snd].
    destruct Hc as [[_ ->]|(h & body & st1 & c1 & Hp & Hd & _ & Hcase)].
    { intros Hin. inversion Hin. }
    assert (Hc1 : c ∈ c1 → ∃ s0 data0 h0 body0 st2,
              SocketMessage s data = SocketMessage s0 data0
              ∧ JSON_parse data0 = Normal body0 ∧ dispatched h0 body0 st st2 [c]).
    { intros Hin. exists s, data, h, body, st1. split; [reflexivity|]. split; [exact Hp|].
      destruct Hd; try (apply list_elem_of_singleton in Hin as ->);
        try (econstructor; eassumption). inversion Hin. }
    destruct Hcase as [(_ & _ & ->)|(_ & _ & ->)]; intros Hin.
    + apply elem_of_app in Hin as [Hin|Hin]; [do 4 right; auto|].
      apply list_elem_of_singleton in Hin as ->. do 3 right. left. eauto.
    + do 4 right. auto.
  - rewrite step_SocketClosed_run.
    destruct (sockets st !! s ≫= onclose) as [h|]; cbn [fst snd].
    + rewrite onclose_handler_run.
      destruct (code =? 1005)%Z; cbn [fst snd]; intros Hin;
        apply elem_of_cons in Hin as [->|Hin];
        try (right; right; left; eauto; fail);
        apply list_elem_of_singleton in Hin as ->; do 3 right; left; eauto.
    + intros Hin. inversion Hin.
  - cbn. intros Hin. inversion Hin.
Qed.

End NotifierSockets.

(** ** What the callbacks are given *)

Section NotifierPayloads.
Context `{Imports}.

Lemma packArticleData_safe (d : any) (p : IAllArticlesData) :
  packArticleData d = Normal p → Forall safe_url (aa_articles p).
Proof.
  unfold packArticleData.
  destruct (get d "categories") as [cs|e]; cbn [bind]; [|discriminate].
  destruct (call_map CategoryModel cs) as [categories|e]; cbn [bind]; [|discriminate].
  destruct (get d "articles") as [as_|e]; cbn [bind]; [|discriminate].
  destruct as_ as [| |b|q|s|l|m|n]; cbn [call_map bind]; try discriminate.
  destruct (mapM ArticleModel l) as [articles|e] eqn:Hmap; cbn [bind]; [|discriminate].
  intros [= <-]. cbn. eapply mapM_ArticleModel_safe. exact Hmap.
Qed.

Lemma packArticleUpdate_safe (d : any) (p : IArticleUpdate) (l : list any) :
  packArticleUpdate d = Normal p → au_articles p = Some l → Forall safe_url l.
Proof.
  unfold packArticleUpdate.
  destruct (get d "categories") as [cs|e]; cbn [bind]; [|discriminate].
  destruct (if truthy cs then _ else _) as [categories|e]; cbn [bind]; [|discriminate].
  destruct (get d "articles") as [as_|e]; cbn [bind]; [|discriminate].
  destruct (truthy as_).
  - destruct as_ as [| |b|q|s|l0|m|n]; cbn [call_map bind]; try discriminate.
    destruct (mapM ArticleModel l0) as [articles|e] eqn:Hmap; cbn [bind]; [|discriminate].
    intros [= <-]. cbn. intros [= <-]. eapply mapM_ArticleModel_safe. exact Hmap.
  - cbn [bind]. intros [= <-]. cbn. discriminate.
Qed.

End NotifierPayloads.

(** X11.  Whatever event is handled in whatever state, the articles that
    reach [allArticlesDataHandler] or [articleUpdateHandler] have all been
    through [ArticleModel]: none of them carries a [url] string other than
    an empty one or one starting with [http://] or [https://]. *)
Theorem callbacks_receive_safe_urls `{Imports} (e : Event) (st : State) (c : Call) :
  c ∈ calls_of_step e st →
  (∀ h d, c = allArticlesDataHandler h d → Forall safe_url (aa_articles d))
  ∧ (∀ h d l, c = articleUpdateHandler h d → au_articles d = Some l →
              Forall safe_url l).
Proof.
  intros Hin.
  destruct (step_call_origin e st c Hin)
    as [(url & -> & _)|[(s & -> & _)|[(text & args & ->)|[(h & status & ->)
       |(s & data & h & body & st1 & _ & _ & Hd)]]]];
    try (split; [intros ? ? Heq|intros ? ? ? Heq]; discriminate Heq).
  inversion Hd; subst; split; intros; try discriminate;
    match goal with
    | Heq : _ = _ |- _ => injection Heq as <- <-
    end.
  - eapply packArticleData_safe; eassumption.
  - eapply packArticleUpdate_safe; eassumption.
Qed.

Lemma callbacks_receive_safe_urls_witness :
  allArticlesDataHandler 0
    (mkAllArticlesData [] [Obj {[ "id" := Str "7"; "url" := Null ]}])
    ∈ calls_of_step (H := sample_imports) (SocketMessage 0 msg_global)
        (state_after (H := sample_imports) [CallConnect 0] (initial (Some "abc")))
  ∧ Forall safe_url [Obj {[ "id" := Str "7"; "url" := Null ]}].
Proof.
  assert (Hin : allArticlesDataHandler 0
                  (mkAllArticlesData [] [Obj {[ "id" := Str "7"; "url" := Null ]}])
                ∈ calls_of_step (H := sample_imports) (SocketMessage 0 msg_global)
                    (state_after (H := sample_imports) [CallConnect 0]
                       (initial (Some "abc")))).
  { replace (calls_of_step (H := sample_imports) (SocketMessage 0 msg_global)
               (state_after (H := sample_imports) [CallConnect 0] (initial (Some "abc"))))
      with [allArticlesDataHandler 0
              (mkAllArticlesData [] [Obj {[ "id" := Str "7"; "url" := Null ]}])]
      by (vm_compute; reflexivity).
    apply list_elem_of_here. }
  split; [exact Hin|].
  exact (proj1 (callbacks_receive_safe_urls (H := sample_imports) _ _ _ Hin) _ _ eq_refl).
Defined.

(** X12.  Reconnecting never closes the socket it replaces: [close] is
    called on a socket only by [disconnectNotifier], and then on the
    socket [ws] refers to. *)
Theorem only_disconnect_closes_a_socket `{Imports} (e : Event) (st : State) (s : nat) :
  ws_close s ∈ calls_of_step e st → e = CallDisconnect ∧ ws st = Some s.
Proof.
  intros Hin.
  destruct (step_call_origin e st _ Hin)
    as [(url & Heq & _)|[(s' & Heq & He & Hws)|[(text & args & Heq)|[(h & status & Heq)
       |(s' & data & h & body & st1 & _ & _ & Hd)]]]];
    try discriminate Heq.
  - injection Heq as ->. auto.
  - inversion Hd.
Qed.

Lemma only_disconnect_closes_a_socket_witness :
  ws_close 0 ∈ calls_of_step (H := sample_imports) CallDisconnect
                 (state_after (H := sample_imports) [CallConnect 0] (initial (Some "abc")))
  ∧ ws (state_after (H := sample_imports) [CallConnect 0] (initial (Some "abc"))) = Some 0.
Proof.
  assert (Hin : ws_close 0 ∈ calls_of_step (H := sample_imports) CallDisconnect
                  (state_after (H := sample_imports) [CallConnect 0] (initial (Some "abc"))))
    by (vm_compute; apply list_elem_of_here).
  split; [exact Hin|].
  exact (proj2 (only_disconnect_closes_a_socket (H := sample_imports) _ _ _ Hin)).
Defined.

(** X13.  [packSystemData] succeeds only on a payload whose [users],
    [tags], [taggingSensitivities], [rules] and [preselects] are all
    arrays, and it packs them element by element: each packed list is as
    long as the array received. *)
Theorem packSystemData_needs_five_arrays `{Imports} (d : any) (p : ISystemData) :
  packSystemData d = Normal p →
  ∃ us ts ss rs ps,
    get d "users" = Normal (Arr us) ∧ length (sd_users p) = length us
    ∧ get d "tags" = Normal (Arr ts) ∧ length (sd_tags p) = length ts
    ∧ get d "taggingSensitivities" = Normal (Arr ss)
    ∧ length (sd_taggingSensitivities p) = length ss
    ∧ get d "rules" = Normal (Arr rs) ∧ length (sd_rules p) = length rs
    ∧ get d "preselects" = Normal (Arr ps) ∧ length (sd_preselects p) = length ps.
Proof.
  unfold packSystemData.
  destruct (get d "users") as [us|e]; cbn [bind]; [|discriminate].
  destruct us as [| |?|?|?|us|?|?]; cbn [call_map bind]; try discriminate.
  destruct (mapM UserModel us) as [users|e] eqn:Hu; cbn [bind]; [|discriminate].
  destruct (get d "tags") as [ts|e]; cbn [bind]; [|discriminate].
  destruct ts as [| |?|?|?|ts|?|?]; cbn [call_map bind]; try discriminate.
  destruct (mapM TagModel ts) as [tags|e] eqn:Ht; cbn [bind]; [|discriminate].
  destruct (get d "taggingSensitivities") as [ss|e]; cbn [bind]; [|discriminate].
  destruct ss as [| |?|?|?|ss|?|?]; cbn [call_map bind]; try discriminate.
  destruct (mapM TaggingSensitivityModel ss) as [sens|e] eqn:Hs; cbn [bind]; [|discriminate].
  destruct (get d "rules") as [rs|e]; cbn [bind]; [|discriminate].
  destruct rs as [| |?|?|?|rs|?|?]; cbn [call_map bind]; try discriminate.
  destruct (mapM RuleModel rs) as [rules|e] eqn:Hr; cbn [bind]; [|discriminate].
  destruct (get d "preselects") as [ps|e]; cbn [bind]; [|discriminate].
  destruct ps as [| |?|?|?|ps|?|?]; cbn [call_map bind]; try discriminate.
  destruct (mapM PreselectModel ps) as [pre|e] eqn:Hp; cbn [bind]; [|discriminate].
  intros [= <-]. exists us, ts, ss, rs, ps. cbn.
  repeat split; eauto using mapM_length.
Qed.

Lemma packSystemData_needs_five_arrays_witness :
  packSystemData (H := sample_imports)
    (Obj {[ "users" := Arr [Obj {[ "id" := Str "1" ]}]; "tags" := Arr [];
            "taggingSensitivities" := Arr []; "rules" := Arr [];
            "preselects" := Arr [] ]})
  = Normal (mkSystemData [Obj {[ "id" := Str "1" ]}] [] [] [] [])
  ∧ ∃ us ts ss rs ps,
      get (Obj {[ "users" := Arr [Obj {[ "id" := Str "1" ]}]; "tags" := Arr [];
                  "taggingSensitivities" := Arr []; "rules" := Arr [];
                  "preselects" := Arr [] ]}) "users" = Normal (Arr us)
      ∧ length [Obj {[ "id" := Str "1" ]}] = length us
      ∧ get (Obj {[ "users" := Arr [Obj {[ "id" := Str "1" ]}]; "tags" := Arr [];
                    "taggingSensitivities" := Arr []; "rules" := Arr [];
                    "preselects" := Arr [] ]}) "tags" = Normal (Arr ts)
      ∧ length ([] : list any) = length ts
      ∧ get (Obj {[ "users" := Arr [Obj {[ "id" := Str "1" ]}]; "tags" := Arr [];
                    "taggingSensitivities" := Arr []; "rules" := Arr [];
                    "preselects" := Arr [] ]}) "taggingSensitivities" = Normal (Arr ss)
      ∧ length ([] : list any) = length ss
      ∧ get (Obj {[ "users" := Arr [Obj {[ "id" := Str "1" ]}]; "tags" := Arr [];
                    "taggingSensitivities" := Arr []; "rules" := Arr [];
                    "preselects" := Arr [] ]}) "rules" = Normal (Arr rs)
      ∧ length ([] : list any) = length rs
      ∧ get (Obj {[ "users" := Arr [Obj {[ "id" := Str "1" ]}]; "tags" := Arr [];
                    "taggingSensitivities" := Arr []; "rules" := Arr [];
                    "preselects" := Arr [] ]}) "preselects" = Normal (Arr ps)
      ∧ length ([] : list any) = length ps.
Proof.
  assert (Hrun : packSystemData (H := sample_imports)
            (Obj {[ "users" := Arr [Obj {[ "id" := Str "1" ]}]; "tags" := Arr [];
                    "taggingSensitivities" := Arr []; "rules" := Arr [];
                    "preselects" := Arr [] ]})
            = Normal (mkSystemData [Obj {[ "id" := Str "1" ]}] [] [] [] []))
    by reflexivity.
  split; [exact Hrun|].
  exact (packSystemData_needs_five_arrays (H := sample_imports) _ _ Hrun).
Defined.

(** ** Flags and statuses over time *)

Section NotifierFlags.
Context `{Imports}.

Lemma step_flags_monotone (e : Event) (st : State) :
  (gotSystem st = true → gotSystem (step e st).1.1 = true)
  ∧ (gotArticles st = true → gotArticles (step e st).1.1 = true)
  ∧ (gotUser st = true → gotUser (step e st).1.1 = true).
Proof.
  destruct e as [h| |t|s|s data|s code|tok];
    try (match goal with
         | |- context [step ?e st] =>
             pose proof (other_step_frame e st ltac:(discriminate)) as Hf;
             destruct (step e st) as [[st' calls] r]; cbn [fst snd];
             destruct Hf as (-> & -> & -> & _); auto
         end).
  pose proof (message_step_cases s data st) as Hc.
  destruct (step (SocketMessage s data) st) as [[st' calls] r]. cbn [fst snd].
  destruct Hc as [[-> _]|(h & body & st1 & c1 & _ & Hd & _ & Hcase)]; [auto|].
  apply dispatched_frame in Hd.
  destruct Hd as (_ & _ & _ & _ & _ & _ & _ & _ & Ms & Ma & Mu & _).
  destruct Hcase as [(_ & -> & _)|(_ & -> & _)]; cbn; auto.
Qed.

(** The one status a close event signals. *)
Lemma step_status_calls (e : Event) (st : State) :
  status_calls (calls_of_step e st) = []
  ∨ (∃ h s data, e = SocketMessage s data
                 ∧ status_calls (calls_of_step e st) = [(h, STATUS_UP)])
  ∨ (∃ h s code o, e = SocketClosed s code
                   ∧ sockets st !! s = Some o ∧ onclose o = Some h
                   ∧ status_calls (calls_of_step e st)
                     = [(h, if (code =? 1005)%Z then STATUS_RESET
                            else if negb (gotSystem st) && negb (gotArticles st)
                                    && negb (gotUser st)
                                 then STATUS_RESET else STATUS_DOWN)]).
Proof.
  unfold calls_of_step. destruct e as [h| |t|s|s data|s code|tok].
  - left. cbn [step]. rewrite connectNotifier_run, checkSocketAlive_run.
    destruct (ws_is_open st); reflexivity.
  - left. cbn [step]. rewrite disconnectNotifier_run. cbv zeta.
    destruct (ws st); reflexivity.
  - left. rewrite step_Tick_run. destruct (intervals st !! t) as [iv|]; [|reflexivity].
    destruct (active iv); [|reflexivity]. rewrite checkSocketAlive_run.
    destruct (ws_is_open st); reflexivity.
  - left. rewrite step_SocketOpened_run.
    destruct (sockets st !! s ≫= onopen) as [h|]; [|reflexivity].
    rewrite onopen_handler_run. cbn [ws with_state_of set_sockets].
    destruct (ws st); reflexivity.
  - pose proof (message_step_cases s data st) as Hc.
    destruct (step (SocketMessage s data) st) as [[st' calls] r]. cbn [fst snd].
    destruct Hc as [[_ ->]|(h & body & st1 & c1 & _ & Hd & _ & Hcase)]; [now left|].
    apply dispatched_frame in Hd. destruct Hd as (_ & _ & _ & _ & _ & _ & Hsc & _).
    destruct Hcase as [(_ & _ & ->)|(_ & _ & ->)].
    + right. left. exists h, s, data. split; [reflexivity|].
      now rewrite status_calls_app, Hsc.
    + left. exact Hsc.
  - rewrite step_SocketClosed_run.
    destruct (sockets st !! s) as [o|] eqn:Ho; cbn [mbind option_bind]; [|now left].
    destruct (onclose o) as [h|] eqn:Hh; [|now left].
    right. right. exists h, s, code, o. split; [reflexivity|]. split; [exact Ho|].
    split; [exact Hh|]. rewrite onclose_handler_run.
    destruct (code =? 1005)%Z; reflexivity.
  - now left.
Qed.

End NotifierFlags.

(** X14.  The flags [gotSystem], [gotArticles] and [gotUser] are never
    cleared: once set, each stays set through any events, closes and
    reconnects included. *)
Theorem flags_are_never_cleared `{Imports} (evs : list Event) (st : State) :
  (gotSystem st = true → gotSystem (state_after evs st) = true)
  ∧ (gotArticles st = true → gotArticles (state_after evs st) = true)
  ∧ (gotUser st = true → gotUser (state_after evs st) = true).
Proof.
  revert st. induction evs as [|e evs IH]; intros st; [cbn; auto|].
  rewrite state_after_cons.
  destruct (step_flags_monotone e st) as (Ms & Ma & Mu).
  destruct (IH (step e st).1.1) as (Is & Ia & Iu). auto.
Qed.

(** X15.  With the three flags set and the socket not up (the state after
    a reconnect), the first message on which [ws.onmessage] completes
    signals [STATUS_UP], whatever its type. *)
Theorem any_message_brings_up_again `{Imports}
    (h : Handlers) (data : string) (st st' : State) (calls : list Call) :
  gotSystem st = true → gotArticles st = true → gotUser st = true →
  socketUp st = false →
  onmessage_handler h data st = (st', calls, Normal tt) →
  status_calls calls = [(h, STATUS_UP)] ∧ socketUp st' = true.
Proof.
  intros Hs Ha Hu Hdown Hrun.
  pose proof (onmessage_handler_cases h data st) as Hc. rewrite Hrun in Hc.
  destruct Hc as (body & st1 & c1 & _ & Hd & Hsig & Htake).
  apply dispatched_frame in Hd.
  destruct Hd as (Eup & _ & _ & _ & _ & _ & Hsc & _ & Ms & Ma & Mu & _).
  rewrite onmessage_signal_up_run, (Ms Hs), (Ma Ha), (Mu Hu), Eup, Hdown in Hsig.
  cbn in Hsig. injection Hsig as <- Hdrop.
  rewrite <- (take_drop (length c1) calls), Htake, <- Hdrop, status_calls_app, Hsc.
  split; reflexivity.
Qed.

Lemma any_message_brings_up_again_witness :
  onmessage_handler (H := sample_imports) 0 msg_ping
    (state_after (H := sample_imports) sample_reconnection (initial (Some "abc")))
  = (set_socketUp true
       (state_after (H := sample_imports) sample_reconnection (initial (Some "abc"))),
     [websocketStateHandler 0 STATUS_UP], Normal tt)
  ∧ status_calls [websocketStateHandler 0 STATUS_UP] = [(0, STATUS_UP)].
Proof.
  assert (Hrun : onmessage_handler (H := sample_imports) 0 msg_ping
                   (state_after (H := sample_imports) sample_reconnection
                      (initial (Some "abc")))
                 = (set_socketUp true
                      (state_after (H := sample_imports) sample_reconnection
                         (initial (Some "abc"))),
                    [websocketStateHandler 0 STATUS_UP], Normal tt))
    by (vm_compute; reflexivity).
  split; [exact Hrun|].
  exact (proj1 (any_message_brings_up_again (H := sample_imports) 0 msg_ping
                  (state_after (H := sample_imports) sample_reconnection
                     (initial (Some "abc")))
                  _ _ eq_refl eq_refl eq_refl eq_refl Hrun)).
Defined.

(** X16.  Handling one event never signals more than one status. *)
Theorem at_most_one_status_per_event `{Imports} (e : Event) (st : State) :
  (length (status_calls (calls_of_step e st)) ≤ 1)%nat.
Proof.
  destruct (step_status_calls e st)
    as [->|[(h & s & data & _ & ->)|(h & s & code & o & _ & _ & _ & ->)]];
    cbn; lia.
Qed.

Section NotifierReachable.
Context `{Imports}.

Lemma no_close_handler_kept (e : Event) (st : State) :
  (∀ s, e ≠ SocketOpened s) → no_close_handler st →
  no_close_handler (step e st).1.1.
Proof.
  intros Hne Hinv s' o' Ho'.
  destruct (step_socket_lookup e st s' o' Ho')
    as [(o & Ho & _ & _ & [Hc|(s & h & He & _)])|(_ & h & -> & _)].
  - rewrite Hc. now apply (Hinv s').
  - now destruct (Hne s).
  - reflexivity.
Qed.

Lemma no_status_without_close_handler (evs : list Event) (st : State)
    (h : Handlers) (status : string) :
  (∀ s, SocketOpened s ∉ evs) → no_close_handler st →
  (h, status) ∈ status_calls (calls_during evs st) → status = STATUS_UP.
Proof.
  revert st. induction evs as [|e evs IH]; intros st Hno Hinv Hin.
  { inversion Hin. }
  rewrite calls_during_cons, status_calls_app in Hin.
  assert (Hne : ∀ s, e ≠ SocketOpened s).
  { intros s ->. apply (Hno s). apply list_elem_of_here. }
  apply elem_of_app in Hin as [Hin|Hin].
  - destruct (step_status_calls e st)
      as [Hnil|[(h' & s & data & _ & Hup)|(h' & s & code & o & _ & Ho & Hh & _)]].
    + rewrite Hnil in Hin. inversion Hin.
    + rewrite Hup in Hin. apply list_elem_of_singleton in Hin. congruence.
    + rewrite (Hinv s o Ho) in Hh. discriminate Hh.
  - apply (IH (step e st).1.1); [|now apply no_close_handler_kept|exact Hin].
    intros s Hs. apply (Hno s). now apply list_elem_of_further.
Qed.

Lemma step_ws_valid (e : Event) (st : State) :
  (∀ s, ws st = Some s → s < length (sockets st)) →
  ∀ s, ws (step e st).1.1 = Some s → s < length (sockets (step e st).1.1).
Proof.
  intros Hinv.
  assert (Hcheck : ∀ h s, ws (checkSocketAlive h st).1.1 = Some s →
            s < length (sockets (checkSocketAlive h st).1.1)).
  { intros h s. rewrite checkSocketAlive_run.
    destruct (ws_is_open st); cbn [fst snd]; [apply Hinv|].
    unfold reconnected. cbn [ws sockets set_sockets set_ws].
    intros [= <-]. rewrite length_app. cbn. lia. }
  destruct e as [h| |t|s0|s0 data|s0 code|tok].
  - cbn [step]. rewrite connectNotifier_run.
    destruct (checkSocketAlive h st) as [[st1 c1] r1] eqn:Hrun. cbn [fst snd].
    cbn [ws sockets set_intervalTimer set_intervals]. intros s Hs.
    specialize (Hcheck h s). rewrite Hrun in Hcheck. now apply Hcheck.
  - cbn [step]. rewrite disconnectNotifier_run. cbv zeta.
    destruct (ws st) as [cur|] eqn:Hws; cbn [fst snd];
      destruct (intervalTimer st); cbn [ws sockets set_sockets set_intervals];
      rewrite ?length_alter, ?Hws; try discriminate; intros s [= <-]; now apply Hinv.
  - rewrite step_Tick_run. destruct (intervals st !! t) as [iv|]; cbn [fst snd];
      [|apply Hinv].
    destruct (active iv); cbn [fst snd]; [apply Hcheck|apply Hinv].
  - rewrite step_SocketOpened_run.
    destruct (sockets st !! s0 ≫= onopen) as [h|]; cbn [fst snd].
    + rewrite onopen_handler_run. cbn [ws with_state_of set_sockets].
      destruct (ws st) as [cur|] eqn:Hws;
        cbn [fst snd ws sockets set_sockets with_state_of];
        rewrite ?length_alter, ?Hws; try discriminate.
      intros s [= <-]. now apply Hinv.
    + unfold with_state_of. cbn [ws sockets set_sockets]. rewrite length_alter. apply Hinv.
  - pose proof (message_step_cases s0 data st) as Hc.
    destruct (step (SocketMessage s0 data) st) as [[st' calls] r]. cbn [fst snd].
    destruct Hc as [[-> _]|(h & body & st1 & c1 & _ & Hd & _ & Hcase)]; [apply Hinv|].
    apply dispatched_frame in Hd. destruct Hd as (_ & Hws & Hsock & _).
    destruct Hcase as [(_ & -> & _)|(_ & -> & _)]; cbn [ws sockets set_socketUp];
      rewrite Hws, Hsock; apply Hinv.
  - rewrite step_SocketClosed_run.
    destruct (sockets st !! s0 ≫= onclose) as [h|]; cbn [fst snd].
    + rewrite onclose_handler_run.
      destruct (code =? 1005)%Z;
        cbn [fst snd ws sockets set_ws set_socketUp with_state_of set_sockets];
        rewrite ?length_alter; [apply Hinv|discriminate].
    + unfold with_state_of. cbn [ws sockets set_sockets]. rewrite length_alter. apply Hinv.
  - cbn. apply Hinv.
Qed.

Lemma handlers_installed_kept (e : Event) (st : State) :
  (∀ s o, sockets st !! s = Some o → is_Some (onopen o) ∧ is_Some (onmessage o)) →
  ∀ s o, sockets (step e st).1.1 !! s = Some o →
         is_Some (onopen o) ∧ is_Some (onmessage o).
Proof.
  intros Hinv s' o' Ho'.
  destruct (step_socket_lookup e st s' o' Ho')
    as [(o & Ho & -> & -> & _)|(_ & h & -> & _)].
  - now apply (Hinv s').
  - cbn. split; eauto.
Qed.

End NotifierReachable.

(** X17.  Until a socket has opened, the notifier signals neither
    [STATUS_DOWN] nor [STATUS_RESET]: the close handler is installed by
    the open handler, so connections that fail before they open are
    silent. *)
Theorem no_down_or_reset_before_an_open `{Imports}
    (tok : option string) (evs : list Event) (h : Handlers) (status : string) :
  (∀ s, SocketOpened s ∉ evs) →
  (h, status) ∈ status_calls (calls_during evs (initial tok)) →
  status = STATUS_UP.
Proof.
  intros Hno. apply no_status_without_close_handler; [exact Hno|].
  intros s o Ho. cbn in Ho. rewrite lookup_nil in Ho. discriminate Ho.
Qed.

Lemma no_down_or_reset_before_an_open_witness :
  (∀ s, SocketOpened s ∉ [CallConnect 0; SocketMessage 0 msg_system;
                           SocketMessage 0 msg_global; SocketMessage 0 msg_user;
                           SocketClosed 0 1006])
  ∧ (0, "up") ∈ status_calls
      (calls_during (H := sample_imports)
         [CallConnect 0; SocketMessage 0 msg_system; SocketMessage 0 msg_global;
          SocketMessage 0 msg_user; SocketClosed 0 1006] (initial (Some "abc")))
  ∧ "up" = STATUS_UP.
Proof.
  assert (Hno : ∀ s, SocketOpened s ∉ [CallConnect 0; SocketMessage 0 msg_system;
                                       SocketMessage 0 msg_global;
                                       SocketMessage 0 msg_user; SocketClosed 0 1006]).
  { intros s. rewrite !elem_of_cons, elem_of_nil.
    intros [Hin|[Hin|[Hin|[Hin|[Hin|[]]]]]]; discriminate Hin. }
  assert (Hin : (0, "up") ∈ status_calls
            (calls_during (H := sample_imports)
               [CallConnect 0; SocketMessage 0 msg_system; SocketMessage 0 msg_global;
                SocketMessage 0 msg_user; SocketClosed 0 1006] (initial (Some "abc"))))
    by (vm_compute; apply list_elem_of_here).
  split; [exact Hno|]. split; [exact Hin|].
  exact (no_down_or_reset_before_an_open (H := sample_imports) (Some "abc") _ 0 "up"
           Hno Hin).
Defined.

(** X18.  In every state the notifier can reach from its initial one, [ws]
    is [null] or refers to a socket it constructed, and every socket it
    constructed has its open and message handlers, so no message is
    dropped for lack of a handler. *)
Theorem reachable_sockets_have_handlers `{Imports}
    (tok : option string) (evs : list Event) :
  (∀ s, ws (state_after evs (initial tok)) = Some s →
        s < length (sockets (state_after evs (initial tok))))
  ∧ (∀ s o, sockets (state_after evs (initial tok)) !! s = Some o →
            is_Some (onopen o) ∧ is_Some (onmessage o))
  ∧ (∀ s data, s < length (sockets (state_after evs (initial tok))) →
               ∃ h, step (SocketMessage s data) (state_after evs (initial tok))
                    = onmessage_handler h data (state_after evs (initial tok))).
Proof.
  assert (Hinv : ∀ st,
            (∀ s, ws st = Some s → s < length (sockets st)) →
            (∀ s o, sockets st !! s = Some o → is_Some (onopen o) ∧ is_Some (onmessage o)) →
            (∀ s, ws (state_after evs st) = Some s →
                  s < length (sockets (state_after evs st)))
            ∧ (∀ s o, sockets (state_after evs st) !! s = Some o →
                      is_Some (onopen o) ∧ is_Some (onmessage o))).
  { induction evs as [|e evs IH]; intros st Hws Hh; [split; assumption|].
    rewrite state_after_cons. apply IH.
    - now apply step_ws_valid.
    - now apply handlers_installed_kept. }
  destruct (Hinv (initial tok)) as (Hws & Hh).
  { cbn. discriminate. }
  { intros s o Ho. cbn in Ho. rewrite lookup_nil in Ho. discriminate Ho. }
  split; [exact Hws|]. split; [exact Hh|].
  intros s data Hs. apply lookup_lt_is_Some in Hs as [o Ho].
  destruct (Hh s o Ho) as (_ & [h Hm]). exists h.
  rewrite step_SocketMessage_run, Ho. cbn [mbind option_bind]. now rewrite Hm.
Qed.

(** ** Intervals and stale sockets *)

Lemma disconnect_intervals `{Imports} (st : State) :
  intervals (step CallDisconnect st).1.1
  = match intervalTimer st with
    | Some t => alter (fun iv => mkInterval (callback iv) (delay iv) false) t (intervals st)
    | None => intervals st
    end.
Proof.
  cbn [step]. rewrite disconnectNotifier_run. cbv zeta.
  destruct (ws st), (intervalTimer st); reflexivity.
Qed.

(** X19.  A second [connectNotifier] overwrites [intervalTimer], so the
    next [disconnectNotifier] cancels only the interval of the second
    call: the interval of the first call stays active and keeps running
    the liveness check. *)
Theorem second_connect_leaks_first_interval `{Imports}
    (st : State) (h1 h2 : Handlers) (evs1 evs2 : list Event) :
  CallDisconnect ∉ evs1 → CallDisconnect ∉ evs2 → (∀ h, CallConnect h ∉ evs2) →
  intervals (state_after (CallConnect h1 :: evs1 ++ CallConnect h2 :: evs2
                          ++ [CallDisconnect]) st)
    !! length (intervals st) = Some (mkInterval h1 10000 true)
  ∧ intervals (state_after (CallConnect h1 :: evs1 ++ CallConnect h2 :: evs2
                            ++ [CallDisconnect]) st)
      !! length (intervals (state_after (CallConnect h1 :: evs1) st))
    = Some (mkInterval h2 10000 false)
  ∧ step (Tick (length (intervals st)))
         (state_after (CallConnect h1 :: evs1 ++ CallConnect h2 :: evs2
                       ++ [CallDisconnect]) st)
    = checkSocketAlive h1
        (state_after (CallConnect h1 :: evs1 ++ CallConnect h2 :: evs2
                      ++ [CallDisconnect]) st).
Proof.
  intros Hno1 Hno2 Hnc2.
  set (sa := state_after (CallConnect h1 :: evs1) st).
  assert (Hfinal : state_after (CallConnect h1 :: evs1 ++ CallConnect h2 :: evs2
                                ++ [CallDisconnect]) st
                   = (step CallDisconnect
                        (state_after evs2 (step (CallConnect h2) sa).1.1)).1.1).
  { change (CallConnect h1 :: evs1 ++ CallConnect h2 :: evs2 ++ [CallDisconnect])
      with ((CallConnect h1 :: evs1) ++ CallConnect h2 :: evs2 ++ [CallDisconnect]).
    rewrite state_after_app. fold sa.
    now rewrite state_after_cons, state_after_app, state_after_single. }
  assert (Hconnect : ∀ h s0, intervals (step (CallConnect h) s0).1.1
                             = intervals s0 ++ [mkInterval h 10000 true]
                           ∧ intervalTimer (step (CallConnect h) s0).1.1
                             = Some (length (intervals s0))).
  { intros h s0.
    destruct (step_intervals (CallConnect h) s0 ltac:(discriminate))
      as [(h' & [= <-] & Hi & Ht)|(Hn & _)]; [auto|now destruct (Hn h)]. }
  assert (H1 : intervals sa !! length (intervals st) = Some (mkInterval h1 10000 true)).
  { unfold sa. rewrite state_after_cons. apply interval_kept; [exact Hno1|].
    rewrite (proj1 (Hconnect h1 st)). now apply list_lookup_middle. }
  destruct (Hconnect h2 sa) as (Hi2 & Ht2).
  set (sb := (step (CallConnect h2) sa).1.1) in *.
  assert (H1c : intervals (state_after evs2 sb) !! length (intervals st)
                = Some (mkInterval h1 10000 true)).
  { apply interval_kept; [exact Hno2|]. rewrite Hi2. now apply lookup_app_l_Some. }
  assert (H2c : intervals (state_after evs2 sb) !! length (intervals sa)
                = Some (mkInterval h2 10000 true)).
  { apply interval_kept; [exact Hno2|]. rewrite Hi2. now apply list_lookup_middle. }
  assert (Htimer : intervalTimer (state_after evs2 sb) = Some (length (intervals sa))).
  { rewrite intervalTimer_kept; auto. }
  assert (Hne : length (intervals sa) ≠ length (intervals st)).
  { apply lookup_lt_Some in H1. lia. }
  rewrite Hfinal.
  assert (Hleft : intervals (step CallDisconnect (state_after evs2 sb)).1.1
                    !! length (intervals st) = Some (mkInterval h1 10000 true)).
  { rewrite disconnect_intervals, Htimer, list_lookup_alter_ne by exact Hne. exact H1c. }
  split; [exact Hleft|]. split.
  - now rewrite disconnect_intervals, Htimer, list_lookup_alter_eq, H2c.
  - now rewrite step_Tick_run, Hleft.
Qed.

Lemma second_connect_leaks_first_interval_witness :
  (CallDisconnect ∉ [SocketOpened 0])
  ∧ intervals (state_after (H := sample_imports)
                 (CallConnect 0 :: [SocketOpened 0] ++ CallConnect 1 :: []
                  ++ [CallDisconnect]) (initial (Some "abc")))
      !! length (intervals (initial (Some "abc")))
    = Some (mkInterval 0 10000 true).
Proof.
  assert (Hno : CallDisconnect ∉ [SocketOpened 0]).
  { rewrite !elem_of_cons, elem_of_nil. intros [Hin|[]]; discriminate Hin. }
  split; [exact Hno|].
  apply (second_connect_leaks_first_interval (H := sample_imports)
           (initial (Some "abc")) 0 1 [SocketOpened 0] [] Hno).
  - apply not_elem_of_nil.
  - intros h. apply not_elem_of_nil.
Defined.

(** X20.  Between a socket going down and the next reconnect, [ws] is
    [null]: a [disconnectNotifier] called then does cancel the interval,
    but throws a [TypeError] on [ws.close()] and closes nothing. *)
Theorem disconnect_after_down_throws `{Imports}
    (s : nat) (code : Z) (st : State) (o : WebSocket) (h : Handlers)
    (t : nat) (iv : Interval) :
  sockets st !! s = Some o → onclose o = Some h → code ≠ 1005%Z →
  intervalTimer st = Some t → intervals st !! t = Some iv →
  ∃ st', step CallDisconnect (state_after [SocketClosed s code] st)
         = (st', [], Throw TypeError)
       ∧ intervals st' !! t = Some (mkInterval (callback iv) (delay iv) false)
       ∧ step (Tick t) st' = (st', [], Normal tt).
Proof.
  intros Hs Ho Hcode Ht Hiv. rewrite state_after_single, step_SocketClosed_run, Hs.
  cbn [mbind option_bind]. rewrite Ho, onclose_handler_run.
  apply Z.eqb_neq in Hcode. rewrite Hcode. cbn [fst snd].
  match goal with
  | |- context [step CallDisconnect ?x] =>
      change (step CallDisconnect x) with (disconnectNotifier x)
  end.
  rewrite disconnectNotifier_run. cbv zeta.
  cbn [ws intervalTimer intervals set_ws set_socketUp with_state_of set_sockets].
  rewrite Ht. eexists. split; [reflexivity|].
  assert (Hoff : alter (fun iv0 => mkInterval (callback iv0) (delay iv0) false) t
                   (intervals st) !! t
                 = Some (mkInterval (callback iv) (delay iv) false))
    by now rewrite list_lookup_alter_eq, Hiv.
  split; [exact Hoff|].
  rewrite step_Tick_run. cbn [intervals set_intervals]. now rewrite Hoff.
Qed.

Lemma disconnect_after_down_throws_witness :
  ws (state_after (H := sample_imports)
        (sample_history ++ [SocketMessage 0 msg_user; SocketClosed 0 1006])
        (initial (Some "abc"))) = None
  ∧ (step (H := sample_imports) CallDisconnect
       (state_after (H := sample_imports)
          (sample_history ++ [SocketMessage 0 msg_user; SocketClosed 0 1006])
          (initial (Some "abc")))).2 = Throw TypeError.
Proof.
  split; [reflexivity|].
  destruct (disconnect_after_down_throws (H := sample_imports) 0 1006
              (state_after (H := sample_imports)
                 (sample_history ++ [SocketMessage 0 msg_user]) (initial (Some "abc")))
              (mkWebSocket "ws://localhost:8080/services/updates/summary/?token=abc"
                 OPEN (Some 0) (Some 0) (Some 0)) 0 0 (mkInterval 0 10000 true)
              eq_refl eq_refl ltac:(discriminate) eq_refl eq_refl)
    as (st' & Hrun & _).
  rewrite <- state_after_app in Hrun. rewrite <- app_assoc in Hrun.
  cbn [app] in Hrun. cbn [app]. now rewrite Hrun.
Defined.

(** X21.  When a socket opens, its open handler installs the close handler
    on the socket that [ws] refers to at that moment.  If a liveness check
    has meanwhile replaced the socket, the new one gets the close handler
    and the one that opened keeps whatever close handler it had. *)
Theorem open_installs_close_handler_on_ws `{Imports}
    (s cur : nat) (st : State) (o oc : WebSocket) (h : Handlers) :
  sockets st !! s = Some o → onopen o = Some h →
  ws st = Some cur → sockets st !! cur = Some oc →
  onclose <$> sockets (state_after [SocketOpened s] st) !! cur = Some (Some h)
  ∧ (cur ≠ s →
     onclose <$> sockets (state_after [SocketOpened s] st) !! s = Some (onclose o)).
Proof.
  intros Hs Ho Hws Hcur. rewrite state_after_single, step_SocketOpened_run, Hs.
  cbn [mbind option_bind]. rewrite Ho, onopen_handler_run.
  cbn [ws with_state_of set_sockets]. rewrite Hws.
  cbn [fst snd sockets set_sockets with_state_of]. split.
  - rewrite list_lookup_alter_eq.
    destruct (decide (s = cur)) as [->|Hne].
    + rewrite list_lookup_alter_eq, Hcur. reflexivity.
    + rewrite list_lookup_alter_ne, Hcur by exact Hne. reflexivity.
  - intros Hne. rewrite list_lookup_alter_ne by exact Hne.
    rewrite list_lookup_alter_eq, Hs. reflexivity.
Qed.

Lemma open_installs_close_handler_on_ws_witness :
  ws (state_after (H := sample_imports) [CallConnect 0; Tick 0] (initial (Some "abc")))
    = Some 1
  ∧ onclose <$> sockets (state_after (H := sample_imports) [SocketOpened 0]
                           (state_after (H := sample_imports) [CallConnect 0; Tick 0]
                              (initial (Some "abc")))) !! 1 = Some (Some 0).
Proof.
  split; [reflexivity|].
  apply (open_installs_close_handler_on_ws (H := sample_imports) 0 1
           (state_after (H := sample_imports) [CallConnect 0; Tick 0]
              (initial (Some "abc")))
           (mkWebSocket "ws://localhost:8080/services/updates/summary/?token=abc"
              CONNECTING (Some 0) (Some 0) None)
           (mkWebSocket "ws://localhost:8080/services/updates/summary/?token=abc"
              CONNECTING (Some 0) (Some 0) None) 0);
    reflexivity.
Defined.
